(** * Auto insurance claim workflow

    A shallow embedding of the workflow of
    [notebooks/auto_insurance_claims.ipynb]: the pydantic schemas, the claim
    loader [parse_claim], the declaration lookup [get_declarations_docs], the
    six [@step] methods of [AutoInsuranceWorkflow] and the event dispatch
    that chains them, followed by the properties of the workflow.

    Conventions of the embedding.
    - A Python [float] is an IEEE 754 binary64 value ([spec_float]).
    - A Python [str] is the sequence of its UTF-8 bytes ([string]).
    - A step is a function on an explicit run state (the [Context] store, the
      event stream, the log of the external calls made so far) that returns
      a value or a raised exception.
    - The hosted services (file system, LLM, the two retrievers) are
      functions from the history of the run and the request to a response or
      an exception; nothing is assumed about them. *)

From Stdlib Require Import ZArith String Ascii List Bool Lia.
From Stdlib Require Import Floats.SpecFloat.
From stdpp Require Import base gmap strings.
Import ListNotations.

(** ** Python values *)

(** [float]: binary64.  [float_of_Z] is the literal of an integer that
    binary64 represents exactly. *)
Definition float : Type := spec_float.

Definition float_of_Z (z : Z) : float := binary_normalize 53 1024 z 0 false.

(** [0.0], which is also what the [int] literal [0] compares as. *)
Definition float_zero : float := S754_zero false.

(** [x > y] *)
Definition float_gt (x y : float) : bool := SFltb y x.

(** [bool(x)]: a float is falsy exactly when it equals zero ([0.0] or
    [-0.0]); a NaN is truthy. *)
Definition float_bool (x : float) : bool := negb (SFeqb x float_zero).

(** [str.lower()].  On the UTF-8 bytes only the ASCII capitals change here
    and the bytes of multi-byte characters are kept.  For the one use of
    [lower] in the workflow, the search for "covered", this is no loss: no
    character outside ASCII lowers to one of the letters of "covered". *)
Definition lower_char (c : ascii) : ascii :=
  let n := nat_of_ascii c in
  if Nat.leb 65 n && Nat.leb n 90 then ascii_of_nat (n + 32) else c.

Fixpoint lower (s : string) : string :=
  match s with
  | EmptyString => EmptyString
  | String c t => String (lower_char c) (lower t)
  end.

(** [needle in hay] on strings *)
Fixpoint contains (needle hay : string) : bool :=
  String.prefix needle hay ||
  match hay with
  | EmptyString => false
  | String _ t => contains needle t
  end.

(** [sep.join(l)] *)
Definition join (sep : string) (l : list string) : string := String.concat sep l.

(** The separator ["\n\n"]: two line feeds. *)
Definition blank_line : string := String "010" (String "010" EmptyString).

(** A Python [dict] with string keys: insertion ordered; assigning to a key
    that is present replaces the value where the key already stands. *)
Definition dict (V : Type) : Type := list (string * V).

Fixpoint dict_set {V} (k : string) (v : V) (d : dict V) : dict V :=
  match d with
  | [] => [(k, v)]
  | (k', v') :: t =>
      if String.eqb k k' then (k, v) :: t else (k', v') :: dict_set k v t
  end.

Fixpoint dict_get {V} (k : string) (d : dict V) : option V :=
  match d with
  | [] => None
  | (k', v') :: t => if String.eqb k k' then Some v' else dict_get k t
  end.

Definition dict_keys {V} (d : dict V) : list string := map fst d.
Definition dict_values {V} (d : dict V) : list V := map snd d.

(** What [json.load] builds. *)
#[warnings="-register-all"]
Inductive json : Type :=
| JNull
| JBool (b : bool)
| JInt (z : Z)
| JFloat (f : float)
| JStr (s : string)
| JList (l : list json)
| JDict (d : list (string * json)).

(** The exceptions the workflow can meet.  [Raised name] is any other
    exception class, raised inside a hosted service. *)
Inductive exn : Type :=
| OSError
| JSONDecodeError
| ValidationError
| IndexError
| ValueError
| AttributeError
| Raised (name : string).

(** The notebook defines no exception class of its own.  The names of the
    design document stand for the exceptions Python raises at these places:
    pydantic's [ValidationError] out of [ClaimInfo.model_validate], and the
    [IndexError] of subscripting an empty declaration lookup with [[0]]. *)
Definition MalformedClaim : exn := ValidationError.
Definition DeclarationNotFound : exn := IndexError.

(** ** Schemas *)

Module ClaimInfo.
Record t : Type := Build {
  claim_number : string;
  policy_number : string;
  claimant_name : string;
  date_of_loss : string;
  loss_description : string;
  estimated_repair_cost : float;
  vehicle_details : option string
}.
End ClaimInfo.

Module PolicyQueries.
Record t : Type := Build { queries : list string }.
End PolicyQueries.

Module PolicyRecommendation.
Record t : Type := Build {
  policy_section : string;
  recommendation_summary : string;
  deductible : option float;
  settlement_amount : option float
}.
End PolicyRecommendation.

Module ClaimDecision.
Record t : Type := Build {
  claim_number : string;
  covered : bool;
  deductible : float;
  recommended_payout : float;
  notes : option string
}.
End ClaimDecision.

(** A retrieved node: the step reads its [id_] and its [get_content()]. *)
Record NodeWithScore : Type := {
  id_ : string;
  get_content : string
}.

(** ** Events, run state and external calls *)

Inductive Event : Type :=
| StartEvent (claim_json_path : string)
| ClaimInfoEvent (claim_info : ClaimInfo.t)
| PolicyQueryEvent (queries : PolicyQueries.t)
| PolicyMatchedEvent (policy_text : string)
| RecommendationEvent (recommendation : PolicyRecommendation.t)
| DecisionEvent (decision : ClaimDecision.t)
| StopEvent (result : dict ClaimDecision.t).

(** The text of a log message: a literal, possibly followed by the query or
    by the record whose [model_dump_json()] the f-string splices in. *)
Inductive message : Type :=
| Text (s : string)
| TextQuery (s : string) (query : string)
| TextRecommendation (s : string) (r : PolicyRecommendation.t)
| TextDecision (s : string) (d : ClaimDecision.t).

Record LogEvent : Type := { msg : message; delta : bool }.

(** A value stored in the [Context] of a run. *)
Inductive ctx_value : Type :=
| VClaimInfo (c : ClaimInfo.t)
| VStr (s : string).

(** One call to a hosted service, with what it answered. *)
Inductive call : Type :=
| call_load (file_path : string) (r : exn + json)
| call_predict_queries (claim_info : ClaimInfo.t) (r : exn + PolicyQueries.t)
| call_aretrieve (query : string) (r : exn + list NodeWithScore)
| call_declarations (policy_number : string) (top_k : nat)
    (r : exn + list NodeWithScore)
| call_predict_recommendation (claim_info : ClaimInfo.t) (policy_text : string)
    (r : exn + PolicyRecommendation.t).

Record RunState : Type := {
  ctx : gmap string ctx_value;
  stream : list LogEvent;
  calls : list call
}.

Definition initial_state : RunState :=
  {| ctx := ∅; stream := []; calls := [] |}.

(** The services behind the module-level names of the notebook: the file
    system with [json.load] ([open] then [json.load] in [parse_claim]), and
    the retriever built on [declarations_index]. *)
Record Services : Type := {
  load_json : list call -> string -> exn + json;
  declarations_retrieve :
    list call -> string -> nat -> exn + list NodeWithScore
}.

(** The attributes of a workflow object: [self.policy_retriever], the two
    uses of [self.llm.astructured_predict] (one per output schema), and
    [self._verbose]. *)
Record AutoInsuranceWorkflow : Type := {
  policy_retriever : list call -> string -> exn + list NodeWithScore;
  llm_predict_queries : list call -> ClaimInfo.t -> exn + PolicyQueries.t;
  llm_predict_recommendation :
    list call -> ClaimInfo.t -> string -> exn + PolicyRecommendation.t;
  _verbose : bool
}.

(** ** The monad of a step: run state and exceptions *)

Definition M (A : Type) : Type := RunState -> (exn + A) * RunState.

Definition ret {A} (a : A) : M A := fun s => (inr a, s).

Definition raise {A} (e : exn) : M A := fun s => (inl e, s).

Definition bind {A B} (m : M A) (k : A -> M B) : M B :=
  fun s =>
    match m s with
    | (inr a, s') => k a s'
    | (inl e, s') => (inl e, s')
    end.

Notation "x <- m ;; k" := (bind m (fun x => k))
  (at level 100, m at next level, right associativity).
Notation "m ;; k" := (bind m (fun _ => k))
  (at level 100, right associativity).

(** [ctx.write_event_to_stream(ev)] under [if self._verbose:] *)
Definition write_event_to_stream (ev : LogEvent) : M unit :=
  fun s =>
    (inr tt, {| ctx := ctx s; stream := stream s ++ [ev]; calls := calls s |}).

Definition log (self : AutoInsuranceWorkflow) (m : message) : M unit :=
  if _verbose self
  then write_event_to_stream {| msg := m; delta := false |}
  else ret tt.

(** [await ctx.set(key, v)] *)
Definition ctx_set (key : string) (v : ctx_value) : M unit :=
  fun s =>
    (inr tt, {| ctx := <[key := v]> (ctx s); stream := stream s; calls := calls s |}).

(** [await ctx.get(key)]: without a default, a missing key raises
    [ValueError]. *)
Definition ctx_get (key : string) : M ctx_value :=
  fun s =>
    match ctx s !! key with
    | Some v => (inr v, s)
    | None => (inl ValueError, s)
    end.

(** Reading the stored claim back as a [ClaimInfo]: an attribute access on
    anything else raises [AttributeError]. *)
Definition as_claim_info (v : ctx_value) : M ClaimInfo.t :=
  match v with
  | VClaimInfo c => ret c
  | VStr _ => raise AttributeError
  end.

(** A call to a hosted service: the service sees the calls made so far, and
    the call is logged with its answer. *)
Definition external {R} (f : list call -> exn + R) (entry : exn + R -> call)
  : M R :=
  fun s =>
    let r := f (calls s) in
    (r, {| ctx := ctx s; stream := stream s; calls := calls s ++ [entry r] |}).

(** [l[0]] *)
Definition subscript0 {A} (l : list A) : M A :=
  match l with
  | x :: _ => ret x
  | [] => raise IndexError
  end.

(** ** The claim loader *)

Section Workflow.

(** pydantic's lax validator of a [float] field, a library function: which
    JSON values it accepts and what float each becomes. *)
Variable lax_float : json -> option float.

(** A required [str] field: only a string validates. *)
Definition validate_str (v : json) : option string :=
  match v with
  | JStr s => Some s
  | _ => None
  end.

(** An [Optional[str] = None] field: missing or [null] is [None]. *)
Definition validate_optional_str (v : option json) : option (option string) :=
  match v with
  | None => Some None
  | Some JNull => Some None
  | Some (JStr s) => Some (Some s)
  | Some _ => None
  end.

Definition required {A} (validate : json -> option A) (d : dict json)
    (field : string) : option A :=
  match dict_get field d with
  | Some v => validate v
  | None => None
  end.

(** [ClaimInfo.model_validate(data)], field by field as the class declares
    them; extra keys are ignored. *)
Definition model_validate (data : json) : exn + ClaimInfo.t :=
  match data with
  | JDict d =>
      match required validate_str d "claim_number",
            required validate_str d "policy_number",
            required validate_str d "claimant_name",
            required validate_str d "date_of_loss",
            required validate_str d "loss_description",
            required lax_float d "estimated_repair_cost",
            validate_optional_str (dict_get "vehicle_details" d) with
      | Some cn, Some pn, Some name, Some date, Some descr, Some cost, Some veh =>
          inr (ClaimInfo.Build cn pn name date descr cost veh)
      | _, _, _, _, _, _, _ => inl ValidationError
      end
  | _ => inl ValidationError
  end.

Definition parse_claim (G : Services) (file_path : string) : M ClaimInfo.t :=
  data <- external (fun h => load_json G h file_path) (call_load file_path);;
  match model_validate data with
  | inr c => ret c
  | inl e => raise e
  end.

(** ** The declaration lookup *)

Definition get_declarations_docs (G : Services) (policy_number : string)
    (top_k : nat) : M (list NodeWithScore) :=
  external (fun h => declarations_retrieve G h policy_number top_k)
           (call_declarations policy_number top_k).

(** ** The steps of [AutoInsuranceWorkflow] *)

Definition load_claim_info (G : Services) (self : AutoInsuranceWorkflow)
    (claim_json_path : string) : M Event :=
  log self (Text ">> Loading Claim Info");;
  claim_info <- parse_claim G claim_json_path;;
  ctx_set "claim_info" (VClaimInfo claim_info);;
  ret (ClaimInfoEvent claim_info).

Definition generate_policy_queries (self : AutoInsuranceWorkflow)
    (claim_info : ClaimInfo.t) : M Event :=
  log self (Text ">> Generating Policy Queries");;
  queries <- external (fun h => llm_predict_queries self h claim_info)
                      (call_predict_queries claim_info);;
  ret (PolicyQueryEvent queries).

(** [for d in docs: combined_docs[d.id_] = d] *)
Definition merge_docs (docs : list NodeWithScore)
    (combined_docs : dict NodeWithScore) : dict NodeWithScore :=
  fold_left (fun acc d => dict_set (id_ d) d acc) docs combined_docs.

(** The loop [for query in ev.queries.queries]. *)
Fixpoint retrieve_queries (self : AutoInsuranceWorkflow) (queries : list string)
    (combined_docs : dict NodeWithScore) : M (dict NodeWithScore) :=
  match queries with
  | [] => ret combined_docs
  | query :: rest =>
      log self (TextQuery ">> Query: " query);;
      docs <- external (fun h => policy_retriever self h query)
                       (call_aretrieve query);;
      retrieve_queries self rest (merge_docs docs combined_docs)
  end.

Definition retrieve_policy_text (G : Services) (self : AutoInsuranceWorkflow)
    (queries : PolicyQueries.t) : M Event :=
  log self (Text ">> Retrieving policy sections");;
  v <- ctx_get "claim_info";;
  combined_docs <- retrieve_queries self (PolicyQueries.queries queries) [];;
  claim_info <- as_claim_info v;;
  decls <- get_declarations_docs G (ClaimInfo.policy_number claim_info) 1;;
  d_doc <- subscript0 decls;;
  let combined_docs := dict_set (id_ d_doc) d_doc combined_docs in
  let policy_text := join blank_line
                          (map get_content (dict_values combined_docs)) in
  ctx_set "policy_text" (VStr policy_text);;
  ret (PolicyMatchedEvent policy_text).

Definition generate_recommendation (self : AutoInsuranceWorkflow)
    (policy_text : string) : M Event :=
  log self (Text ">> Generating Policy Recommendation");;
  v <- ctx_get "claim_info";;
  claim_info <- as_claim_info v;;
  recommendation <-
    external (fun h => llm_predict_recommendation self h claim_info policy_text)
             (call_predict_recommendation claim_info policy_text);;
  log self (TextRecommendation ">> Recommendation: " recommendation);;
  ret (RecommendationEvent recommendation).

Definition finalize_decision (self : AutoInsuranceWorkflow)
    (rec : PolicyRecommendation.t) : M Event :=
  log self (Text ">> Finalizing Decision");;
  v <- ctx_get "claim_info";;
  let covered :=
    contains "covered" (lower (PolicyRecommendation.recommendation_summary rec))
    || match PolicyRecommendation.settlement_amount rec with
       | Some a => float_gt a float_zero
       | None => false
       end in
  let deductible :=
    match PolicyRecommendation.deductible rec with
    | Some d => d
    | None => float_zero
    end in
  let recommended_payout :=
    match PolicyRecommendation.settlement_amount rec with
    | Some a => if float_bool a then a else float_zero
    | None => float_zero
    end in
  claim_info <- as_claim_info v;;
  let decision :=
    ClaimDecision.Build (ClaimInfo.claim_number claim_info) covered deductible
      recommended_payout
      (Some (PolicyRecommendation.recommendation_summary rec)) in
  ret (DecisionEvent decision).

Definition output_result (self : AutoInsuranceWorkflow)
    (decision : ClaimDecision.t) : M Event :=
  log self (TextDecision ">> Decision: " decision);;
  ret (StopEvent [("decision", decision)]).

(** ** The event dispatch of [Workflow]

    Every [@step] method is registered under the event class of its [ev]
    annotation.  A run starts from one [StartEvent]; each pending event is
    handed to the steps that accept its class, the event a step returns
    becomes pending, a [StopEvent] ends the run with its [result], and an
    exception raised in a step ends the run with that exception.  The
    workflow object is built with [timeout=None]. *)

Inductive step : Type :=
| Step_load_claim_info
| Step_generate_policy_queries
| Step_retrieve_policy_text
| Step_generate_recommendation
| Step_finalize_decision
| Step_output_result.

Definition all_steps : list step :=
  [Step_load_claim_info; Step_generate_policy_queries;
   Step_retrieve_policy_text; Step_generate_recommendation;
   Step_finalize_decision; Step_output_result].

(** The [ev] annotation of each step. *)
Definition accepts (s : step) (ev : Event) : bool :=
  match s, ev with
  | Step_load_claim_info, StartEvent _ => true
  | Step_generate_policy_queries, ClaimInfoEvent _ => true
  | Step_retrieve_policy_text, PolicyQueryEvent _ => true
  | Step_generate_recommendation, PolicyMatchedEvent _ => true
  | Step_finalize_decision, RecommendationEvent _ => true
  | Step_output_result, DecisionEvent _ => true
  | _, _ => false
  end.

Definition call_step (G : Services) (self : AutoInsuranceWorkflow) (s : step)
    (ev : Event) : M Event :=
  match s, ev with
  | Step_load_claim_info, StartEvent claim_json_path =>
      load_claim_info G self claim_json_path
  | Step_generate_policy_queries, ClaimInfoEvent claim_info =>
      generate_policy_queries self claim_info
  | Step_retrieve_policy_text, PolicyQueryEvent queries =>
      retrieve_policy_text G self queries
  | Step_generate_recommendation, PolicyMatchedEvent policy_text =>
      generate_recommendation self policy_text
  | Step_finalize_decision, RecommendationEvent recommendation =>
      finalize_decision self recommendation
  | Step_output_result, DecisionEvent decision =>
      output_result self decision
  | _, _ => raise (Raised "TypeError")
  end.

(** One line of the run's record: the step that ran, the event it consumed
    and the event it produced or the exception it raised. *)
Record step_record : Type := {
  ran : step;
  consumed : Event;
  produced : exn + Event
}.

Inductive outcome : Type :=
| Done (result : dict ClaimDecision.t)
| Failed (s : step) (e : exn)
| Stalled
| OutOfFuel.

Record run_result : Type := {
  run_outcome : outcome;
  run_state : RunState;
  run_trace : list step_record
}.

(** Hand one event to the steps that accept it, in turn. *)
Fixpoint deliver (G : Services) (self : AutoInsuranceWorkflow)
    (receivers : list step) (ev : Event) (st : RunState)
    (trace : list step_record)
  : (step * exn + list Event) * RunState * list step_record :=
  match receivers with
  | [] => (inr [], st, trace)
  | s :: rest =>
      match call_step G self s ev st with
      | (inl e, st') =>
          (inl (s, e), st',
           trace ++ [{| ran := s; consumed := ev; produced := inl e |}])
      | (inr out, st') =>
          match deliver G self rest ev st'
                  (trace ++ [{| ran := s; consumed := ev; produced := inr out |}])
          with
          | (inr outs, st'', trace'') => (inr (out :: outs), st'', trace'')
          | failed => failed
          end
      end
  end.

Fixpoint run_loop (G : Services) (self : AutoInsuranceWorkflow) (fuel : nat)
    (pending : list Event) (st : RunState) (trace : list step_record)
  : run_result :=
  match fuel with
  | O => {| run_outcome := OutOfFuel; run_state := st; run_trace := trace |}
  | S fuel' =>
      match pending with
      | [] => {| run_outcome := Stalled; run_state := st; run_trace := trace |}
      | StopEvent result :: _ =>
          {| run_outcome := Done result; run_state := st; run_trace := trace |}
      | ev :: rest =>
          match deliver G self (List.filter (fun s => accepts s ev) all_steps) ev st trace
          with
          | (inl (s, e), st', trace') =>
              {| run_outcome := Failed s e; run_state := st'; run_trace := trace' |}
          | (inr outs, st', trace') =>
              run_loop G self fuel' (rest ++ outs) st' trace'
          end
      end
  end.

(** [workflow.run(claim_json_path=...)] *)
Definition run (G : Services) (self : AutoInsuranceWorkflow) (fuel : nat)
    (claim_json_path : string) : run_result :=
  run_loop G self fuel [StartEvent claim_json_path] initial_state [].

End Workflow.

(** ** Sample data

    The claim of [john.json] and the recommendation the notebook printed
    for it, a strict stand-in for pydantic's float validator, and small
    services; the examples below run the workflow on them. *)

Definition strict_float (v : json) : option float :=
  match v with
  | JFloat f => Some f
  | JInt z => Some (float_of_Z z)
  | _ => None
  end.

Definition john_json : json :=
  JDict [("claim_number", JStr "CLAIM-0001");
         ("policy_number", JStr "POLICY-ABC123");
         ("claimant_name", JStr "John Smith");
         ("date_of_loss", JStr "2024-04-10");
         ("loss_description", JStr "While delivering pizzas, collided with a parked car.");
         ("estimated_repair_cost", JFloat (float_of_Z 1500));
         ("vehicle_details", JStr "2022 Honda Civic")].

Definition john : ClaimInfo.t :=
  ClaimInfo.Build "CLAIM-0001" "POLICY-ABC123" "John Smith" "2024-04-10"
    "While delivering pizzas, collided with a parked car."
    (float_of_Z 1500) (Some "2022 Honda Civic").

Definition john_recommendation : PolicyRecommendation.t :=
  PolicyRecommendation.Build "Collision Coverage"
    "The collision is covered under the Collision Coverage section with a $500 deductible."
    (Some (float_of_Z 500)) (Some (float_of_Z 1000)).

Definition undetermined_recommendation : PolicyRecommendation.t :=
  PolicyRecommendation.Build "Exclusions" "Delivery use is excluded." None None.

Definition zero_recommendation : PolicyRecommendation.t :=
  PolicyRecommendation.Build "Exclusions" "Delivery use is excluded."
    (Some (float_of_Z 500)) (Some float_zero).

Definition doc (i text : string) : NodeWithScore :=
  {| id_ := i; get_content := text |}.

(** One file, [john.json]; the declarations index answers with [decls]. *)
Definition sample_services (decls : list NodeWithScore) : Services :=
  {| load_json := fun _ p =>
       if String.eqb p "john.json" then inr john_json else inl OSError;
     declarations_retrieve := fun _ _ _ => inr decls |}.

(** A workflow whose LLM proposes [qs] and whose retriever answers every
    query with the shared node ["a"] and a node named after the query. *)
Definition sample_workflow (qs : list string) (verbose : bool)
  : AutoInsuranceWorkflow :=
  {| policy_retriever := fun _ q => inr [doc "a" "A"; doc q q];
     llm_predict_queries := fun _ _ => inr (PolicyQueries.Build qs);
     llm_predict_recommendation := fun _ _ _ => inr john_recommendation;
     _verbose := verbose |}.

(** A run state in which [load_claim_info] has stored the claim. *)
Definition loaded_state (c : ClaimInfo.t) : RunState :=
  {| ctx := <["claim_info" := VClaimInfo c]> ∅; stream := []; calls := [] |}.

(** ** Notions the properties are stated with *)

(** [data] validates as the claim [c]: [data] is an object that holds each
    required field with a value of the field's type, and [c] is made of
    these values. *)
Definition valid_claim (lax_float : json -> option float) (data : json)
    (c : ClaimInfo.t) : Prop :=
  exists d,
    data = JDict d /\
    dict_get "claim_number" d = Some (JStr (ClaimInfo.claim_number c)) /\
    dict_get "policy_number" d = Some (JStr (ClaimInfo.policy_number c)) /\
    dict_get "claimant_name" d = Some (JStr (ClaimInfo.claimant_name c)) /\
    dict_get "date_of_loss" d = Some (JStr (ClaimInfo.date_of_loss c)) /\
    dict_get "loss_description" d = Some (JStr (ClaimInfo.loss_description c)) /\
    (exists v, dict_get "estimated_repair_cost" d = Some v /\
               lax_float v = Some (ClaimInfo.estimated_repair_cost c)) /\
    match ClaimInfo.vehicle_details c with
    | Some s => dict_get "vehicle_details" d = Some (JStr s)
    | None => dict_get "vehicle_details" d = None \/
              dict_get "vehicle_details" d = Some JNull
    end.

(** The fields [ClaimInfo] declares without a default, and those among them
    declared [str]. *)
Definition str_fields : list string :=
  ["claim_number"; "policy_number"; "claimant_name"; "date_of_loss";
   "loss_description"].

Definition required_fields : list string :=
  str_fields ++ ["estimated_repair_cost"].

(** The distinct elements of [l] in the order of their first occurrence. *)
Fixpoint first_seen (l : list string) : list string :=
  match l with
  | [] => []
  | x :: t => x :: List.filter (fun y => negb (String.eqb x y)) (first_seen t)
  end.

(** The last node of [seq] whose id is [i]. *)
Fixpoint last_with_id (i : string) (seq : list NodeWithScore)
  : option NodeWithScore :=
  match seq with
  | [] => None
  | x :: t =>
      match last_with_id i t with
      | Some y => Some y
      | None => if String.eqb i (id_ x) then Some x else None
      end
  end.

(** Called for [queries] one after the other from the history [h], the
    policy retriever answers with [results], and the history is then [h']. *)
Fixpoint answers (self : AutoInsuranceWorkflow) (h : list call)
    (queries : list string) (results : list (list NodeWithScore))
    (h' : list call) : Prop :=
  match queries, results with
  | [], [] => h' = h
  | query :: queries', docs :: results' =>
      policy_retriever self h query = inr docs /\
      answers self (h ++ [call_aretrieve query (inr docs)]) queries' results' h'
  | _, _ => False
  end.

(** The dict [d] holds the nodes of the sequence [seq]: its keys are the ids
    in first-seen order, every node sits under its own id, and under each
    id sits the last node of the sequence with that id. *)
Definition holds (d : dict NodeWithScore) (seq : list NodeWithScore) : Prop :=
  dict_keys d = first_seen (map id_ seq) /\
  Forall (fun kv => id_ (snd kv) = fst kv) d /\
  forall i, dict_get i d = last_with_id i seq.

(** The place of an event class in the chain of steps. *)
Definition stage (ev : Event) : nat :=
  match ev with
  | StartEvent _ => 0
  | ClaimInfoEvent _ => 1
  | PolicyQueryEvent _ => 2
  | PolicyMatchedEvent _ => 3
  | RecommendationEvent _ => 4
  | DecisionEvent _ => 5
  | StopEvent _ => 6
  end.

(** A record of steps is chained from [ev]: its first step consumed [ev],
    every later step consumed the event the step before it produced, and
    nothing ran after a step that raised. *)
Fixpoint chained (ev : Event) (trace : list step_record) : Prop :=
  match trace with
  | [] => True
  | r :: t =>
      consumed r = ev /\
      match produced r with
      | inr out => chained out t
      | inl _ => t = []
      end
  end.

(** The event left pending by a record chained from [ev], if its last step
    did not raise. *)
Fixpoint pending_after (ev : Event) (trace : list step_record) : option Event :=
  match trace with
  | [] => Some ev
  | r :: t =>
      match produced r with
      | inr out => pending_after out t
      | inl _ => None
      end
  end.

(** A declaration lookup that returned no document. *)
Definition is_empty_lookup (c : call) : bool :=
  match c with
  | call_declarations _ _ (inr []) => true
  | _ => false
  end.

(** A call to the LLM for a recommendation. *)
Definition is_recommendation_call (c : call) : bool :=
  match c with
  | call_predict_recommendation _ _ _ => true
  | _ => false
  end.

(** The services each step may call. *)
Definition may_call (s : step) (c : call) : bool :=
  match s, c with
  | Step_load_claim_info, call_load _ _ => true
  | Step_generate_policy_queries, call_predict_queries _ _ => true
  | Step_retrieve_policy_text, call_aretrieve _ _ => true
  | Step_retrieve_policy_text, call_declarations _ _ _ => true
  | Step_generate_recommendation, call_predict_recommendation _ _ _ => true
  | _, _ => false
  end.

(** A step record that produced a recommendation, a decision or the final
    result. *)
Definition produced_judgment (r : step_record) : bool :=
  match produced r with
  | inr (RecommendationEvent _) | inr (DecisionEvent _) | inr (StopEvent _) =>
      true
  | _ => false
  end.

(** ** More of the notebook: the dump of a claim, the declarations metadata *)

(** [c.model_dump()]: the fields in the order the class declares them, as
    Python values. *)
Definition model_dump (c : ClaimInfo.t) : dict json :=
  [("claim_number", JStr (ClaimInfo.claim_number c));
   ("policy_number", JStr (ClaimInfo.policy_number c));
   ("claimant_name", JStr (ClaimInfo.claimant_name c));
   ("date_of_loss", JStr (ClaimInfo.date_of_loss c));
   ("loss_description", JStr (ClaimInfo.loss_description c));
   ("estimated_repair_cost", JFloat (ClaimInfo.estimated_repair_cost c));
   ("vehicle_details",
    match ClaimInfo.vehicle_details c with
    | Some s => JStr s
    | None => JNull
    end)].

(** The directory of the claim files in the f-string of the metadata cell. *)
Definition data_dir : string :=
  "/Users/vamshimugala/Desktop/daily_dose_of_ds/auto_insurance_claims_agent/data/".

(** The first loop of the metadata cell:
    [for p in people: person_policy_map[f"{p}-declarations.md"] =
     parse_claim(f"{data_dir}{p}.json").policy_number]. *)
Fixpoint person_policy_map_loop (lax_float : json -> option float)
    (G : Services) (people : list string) (person_policy_map : dict string)
  : M (dict string) :=
  match people with
  | [] => ret person_policy_map
  | p :: rest =>
      claim_info <- parse_claim lax_float G (data_dir +:+ p +:+ ".json");;
      let policy_num := ClaimInfo.policy_number claim_info in
      person_policy_map_loop lax_float G rest
        (dict_set (p +:+ "-declarations.md") policy_num person_policy_map)
  end.

(** [person_policy_map = {}] and the loop over [["alice", "john"]]. *)
Definition build_person_policy_map (lax_float : json -> option float)
    (G : Services) : M (dict string) :=
  person_policy_map_loop lax_float G ["alice"; "john"] [].

(** A document of the declarations pipeline; the cell reads and writes its
    [metadata] only. *)
Record CloudDocument : Type := {
  doc_text : string;
  metadata : dict json
}.

(** [person_policy_map[key]] for a key read out of a metadata dict: a string
    that is no key of the map, or any other hashable value, raises
    [KeyError]; a list or a dict is unhashable and raises [TypeError]. *)
Definition policy_of (person_policy_map : dict string) (key : json)
  : exn + string :=
  match key with
  | JStr k =>
      match dict_get k person_policy_map with
      | Some v => inr v
      | None => inl (Raised "KeyError")
      end
  | JList _ | JDict _ => inl (Raised "TypeError")
  | _ => inl (Raised "KeyError")
  end.

(** The second loop of the metadata cell:
    [for doc in pipeline_docs: doc.metadata["policy_number"] =
     person_policy_map[doc.metadata["file_name"]]].
    The documents are changed in place, so the result holds the documents as
    the loop left them and the exception that stopped it, if one did. *)
Fixpoint tag_pipeline_docs (person_policy_map : dict string)
    (pipeline_docs : list CloudDocument) : list CloudDocument * option exn :=
  match pipeline_docs with
  | [] => ([], None)
  | doc :: rest =>
      match dict_get "file_name" (metadata doc) with
      | None => (doc :: rest, Some (Raised "KeyError"))
      | Some key =>
          match policy_of person_policy_map key with
          | inl e => (doc :: rest, Some e)
          | inr policy_num =>
              let doc' :=
                {| doc_text := doc_text doc;
                   metadata := dict_set "policy_number" (JStr policy_num)
                                 (metadata doc) |} in
              let (rest', stopped) := tag_pipeline_docs person_policy_map rest in
              (doc' :: rest', stopped)
          end
      end
  end.

(** The workflow object [self] with another setting of [verbose]. *)
Definition with_verbose (verbose : bool) (self : AutoInsuranceWorkflow)
  : AutoInsuranceWorkflow :=
  {| policy_retriever := policy_retriever self;
     llm_predict_queries := llm_predict_queries self;
     llm_predict_recommendation := llm_predict_recommendation self;
     _verbose := verbose |}.

(** Two run states with the same context and the same call log; they may
    differ in their event streams. *)
Definition same_run (st st' : RunState) : Prop :=
  ctx st = ctx st' /\ calls st = calls st'.

(** Two computations agree when, from states of the same run, they return
    the same and leave states of the same run. *)
Definition agree {A} (m m' : M A) : Prop :=
  forall st st', same_run st st' ->
    fst (m st) = fst (m' st') /\ same_run (snd (m st)) (snd (m' st')).

(** A claim file of a second policy holder, for the examples. *)
Definition alice_json : json :=
  JDict [("claim_number", JStr "CLAIM-0002");
         ("policy_number", JStr "POLICY-XYZ789");
         ("claimant_name", JStr "Alice Johnson");
         ("date_of_loss", JStr "2024-04-12");
         ("loss_description", JStr "Rear-ended at a stop light.");
         ("estimated_repair_cost", JInt 2200)].

(** The two claim files under [data_dir]. *)
Definition notebook_services : Services :=
  {| load_json := fun _ p =>
       if String.eqb p (data_dir +:+ "alice.json") then inr alice_json
       else if String.eqb p (data_dir +:+ "john.json") then inr john_json
       else inl OSError;
     declarations_retrieve := fun _ _ _ => inr [] |}.

(** A computation only adds to the event stream, only events that are no
    deltas, and nothing at all when the workflow is not verbose. *)
Definition logs_only (self : AutoInsuranceWorkflow) {A} (m : M A) : Prop :=
  forall st,
    exists extra,
      stream (snd (m st)) = stream st ++ extra /\
      Forall (fun ev => delta ev = false) extra /\
      (_verbose self = false -> extra = []).

(** The map knows the document: its metadata name a file, as a string, that
    is a key of the map, with the policy number [v]. *)
Definition known (person_policy_map : dict string) (doc : CloudDocument)
    (v : string) : Prop :=
  exists k,
    dict_get "file_name" (metadata doc) = Some (JStr k) /\
    dict_get k person_policy_map = Some v.

(** [doc'] is [doc] tagged with the policy number [v]: the text and every
    other metadata entry are kept. *)
Definition tagged (v : string) (doc doc' : CloudDocument) : Prop :=
  doc_text doc' = doc_text doc /\
  dict_get "policy_number" (metadata doc') = Some (JStr v) /\
  forall k, k <> "policy_number" ->
            dict_get k (metadata doc') = dict_get k (metadata doc).

(** * Properties *)

(** ** Strings and floats *)

Lemma prefix_spec (s1 s2 : string) :
  String.prefix s1 s2 = true <-> exists post, s2 = s1 +:+ post.
Proof.
  revert s2. induction s1 as [|a s1 IH]; intros s2.
  - split; [intros _; exists s2; reflexivity | intros _; by destruct s2].
  - destruct s2 as [|b s2]; simpl.
    + split; [discriminate | intros [post H]; discriminate].
    + destruct (ascii_dec a b) as [->|Hne].
      * rewrite IH. split; intros [post H]; exists post; [by rewrite H | by inversion H].
      * split; [discriminate | intros [post H]; inversion H; congruence].
Qed.

(** [contains] finds exactly the substrings. *)
Lemma contains_spec (needle hay : string) :
  contains needle hay = true <-> exists pre post, hay = pre +:+ needle +:+ post.
Proof.
  induction hay as [|c hay IH]; cbn [contains].
  - rewrite orb_false_r, prefix_spec. split.
    + intros [post H]. exists EmptyString, post. exact H.
    + intros [pre [post H]]. destruct pre; simpl in H; [eauto | discriminate].
  - rewrite orb_true_iff, prefix_spec, IH. split.
    + intros [[post H] | [pre [post H]]].
      * exists EmptyString, post. exact H.
      * exists (String c pre), post. simpl. by rewrite H.
    + intros [pre [post H]]. destruct pre as [|c' pre]; simpl in H.
      * left. eauto.
      * right. inversion H. eauto.
Qed.

Lemma float_gt_zero_bool (a : float) :
  float_gt a float_zero = true -> float_bool a = true.
Proof.
  destruct a as [s|s| |s m e]; try destruct s; simpl; try discriminate; reflexivity.
Qed.

Lemma float_eq_zero_not_gt (a : float) :
  SFeqb a float_zero = true -> float_gt a float_zero = false.
Proof.
  destruct a as [s|s| |s m e]; try destruct s; simpl; try discriminate; reflexivity.
Qed.

(** ** The decision finalizer *)

(** Unfold one step down to the state it reads. *)
Ltac step_unfold :=
  unfold log, bind, ctx_get, ctx_set, write_event_to_stream, external,
    as_claim_info, subscript0, ret, raise; simpl.

(** With the claim in the context, the finalizer returns a decision, and the
    decision is this one. *)
Lemma finalize_decision_returns (self : AutoInsuranceWorkflow)
    (rec : PolicyRecommendation.t) (st : RunState) (c : ClaimInfo.t) :
  ctx st !! "claim_info" = Some (VClaimInfo c) ->
  exists st',
    finalize_decision self rec st =
      (inr (DecisionEvent
         (ClaimDecision.Build (ClaimInfo.claim_number c)
            (contains "covered"
               (lower (PolicyRecommendation.recommendation_summary rec))
             || match PolicyRecommendation.settlement_amount rec with
                | Some a => float_gt a float_zero
                | None => false
                end)
            (match PolicyRecommendation.deductible rec with
             | Some d => d
             | None => float_zero
             end)
            (match PolicyRecommendation.settlement_amount rec with
             | Some a => if float_bool a then a else float_zero
             | None => float_zero
             end)
            (Some (PolicyRecommendation.recommendation_summary rec)))), st') /\
    ctx st' = ctx st /\ calls st' = calls st.
Proof.
  intros H. unfold finalize_decision. step_unfold.
  destruct (_verbose self); simpl; rewrite H; simpl; eauto.
Qed.

(** C1: the finalizer sets [covered] exactly when the lowered summary
    contains "covered" or the settlement amount is present and greater than
    zero; a settlement amount equal to zero with a summary without "covered"
    gives [covered = false] and a payout of zero. *)
Theorem finalize_decision_covered (self : AutoInsuranceWorkflow)
    (rec : PolicyRecommendation.t) (st : RunState) (c : ClaimInfo.t) :
  ctx st !! "claim_info" = Some (VClaimInfo c) ->
  exists d st',
    finalize_decision self rec st = (inr (DecisionEvent d), st') /\
    (ClaimDecision.covered d = true <->
       (exists pre post,
          lower (PolicyRecommendation.recommendation_summary rec)
          = pre +:+ "covered" +:+ post) \/
       (exists a, PolicyRecommendation.settlement_amount rec = Some a /\
                  float_gt a float_zero = true)) /\
    (forall a,
       PolicyRecommendation.settlement_amount rec = Some a ->
       SFeqb a float_zero = true ->
       ~ (exists pre post,
            lower (PolicyRecommendation.recommendation_summary rec)
            = pre +:+ "covered" +:+ post) ->
       ClaimDecision.covered d = false /\
       ClaimDecision.recommended_payout d = float_zero).
Proof.
  intros H.
  destruct (finalize_decision_returns self rec st c H) as [st' [E _]].
  eexists _, st'. split; [exact E|]. cbn [ClaimDecision.covered ClaimDecision.recommended_payout].
  split.
  - rewrite orb_true_iff, contains_spec. split.
    + intros [Hc | Hs]; [left; exact Hc | right].
      destruct (PolicyRecommendation.settlement_amount rec) as [a|]; [eauto | discriminate].
    + intros [Hc | [a [Ha Hgt]]]; [left; exact Hc | right]. by rewrite Ha.
  - intros a Ha Hz Hno. rewrite Ha. split.
    + apply orb_false_iff. split.
      * apply not_true_is_false. by rewrite contains_spec.
      * by apply float_eq_zero_not_gt.
    + unfold float_bool. by rewrite Hz.
Qed.

Lemma finalize_decision_covered_witness :
  exists d st',
    finalize_decision (sample_workflow [] true) zero_recommendation
      (loaded_state john) = (inr (DecisionEvent d), st') /\
    (ClaimDecision.covered d = true <->
       (exists pre post,
          lower (PolicyRecommendation.recommendation_summary zero_recommendation)
          = pre +:+ "covered" +:+ post) \/
       (exists a,
          PolicyRecommendation.settlement_amount zero_recommendation = Some a /\
          float_gt a float_zero = true)) /\
    (forall a,
       PolicyRecommendation.settlement_amount zero_recommendation = Some a ->
       SFeqb a float_zero = true ->
       ~ (exists pre post,
            lower (PolicyRecommendation.recommendation_summary zero_recommendation)
            = pre +:+ "covered" +:+ post) ->
       ClaimDecision.covered d = false /\
       ClaimDecision.recommended_payout d = float_zero).
Proof.
  apply (finalize_decision_covered (sample_workflow [] true) zero_recommendation
           (loaded_state john) john).
  reflexivity.
Defined.

Example finalize_zero_settlement :
  fst (finalize_decision (sample_workflow [] false) zero_recommendation
         (loaded_state john))
  = inr (DecisionEvent
           (ClaimDecision.Build "CLAIM-0001" false (float_of_Z 500) float_zero
              (Some "Delivery use is excluded."))).
Proof. reflexivity. Qed.

(** C4: the decision's deductible is the recommendation's deductible, or
    zero when it is absent; its payout is the settlement amount when that is
    present and non-zero, and zero otherwise; its notes are the summary. *)
Theorem finalize_decision_fields (self : AutoInsuranceWorkflow)
    (rec : PolicyRecommendation.t) (st : RunState) (c : ClaimInfo.t) :
  ctx st !! "claim_info" = Some (VClaimInfo c) ->
  exists d st',
    finalize_decision self rec st = (inr (DecisionEvent d), st') /\
    (forall x, PolicyRecommendation.deductible rec = Some x ->
               ClaimDecision.deductible d = x) /\
    (PolicyRecommendation.deductible rec = None ->
     ClaimDecision.deductible d = float_zero) /\
    (forall a, PolicyRecommendation.settlement_amount rec = Some a ->
               SFeqb a float_zero = false ->
               ClaimDecision.recommended_payout d = a) /\
    (forall a, PolicyRecommendation.settlement_amount rec = Some a ->
               SFeqb a float_zero = true ->
               ClaimDecision.recommended_payout d = float_zero) /\
    (PolicyRecommendation.settlement_amount rec = None ->
     ClaimDecision.recommended_payout d = float_zero) /\
    ClaimDecision.notes d
    = Some (PolicyRecommendation.recommendation_summary rec).
Proof.
  intros H.
  destruct (finalize_decision_returns self rec st c H) as [st' [E _]].
  eexists _, st'. split; [exact E|].
  cbn [ClaimDecision.deductible ClaimDecision.recommended_payout ClaimDecision.notes].
  unfold float_bool.
  repeat split.
  - by intros x ->.
  - by intros ->.
  - intros a -> Hz. by rewrite Hz.
  - intros a -> Hz. by rewrite Hz.
  - by intros ->.
Qed.

Lemma finalize_decision_fields_witness :
  exists d st',
    finalize_decision (sample_workflow [] true) john_recommendation
      (loaded_state john) = (inr (DecisionEvent d), st') /\
    ClaimDecision.deductible d = float_of_Z 500 /\
    ClaimDecision.recommended_payout d = float_of_Z 1000 /\
    ClaimDecision.notes d
    = Some (PolicyRecommendation.recommendation_summary john_recommendation).
Proof.
  destruct (finalize_decision_fields (sample_workflow [] true)
              john_recommendation (loaded_state john) john)
    as [d [st' [E [Hd [_ [Hp [_ [_ Hn]]]]]]]].
  - reflexivity.
  - exists d, st'. split; [exact E|]. split; [|split].
    + apply Hd. reflexivity.
    + apply Hp; reflexivity.
    + exact Hn.
Defined.

(** C5: the two scenarios.  A recommendation with deductible 500 and
    settlement 1000 gives (covered, 500, 1000), whatever its summary, so also
    for a summary quoting "Collision Coverage... $500 deductible"; one with
    both amounts absent and no "covered" in its summary gives
    (not covered, 0, 0). *)
Theorem finalize_decision_scenarios (self : AutoInsuranceWorkflow)
    (st : RunState) (c : ClaimInfo.t) (section summary : string) :
  ctx st !! "claim_info" = Some (VClaimInfo c) ->
  fst (finalize_decision self
         (PolicyRecommendation.Build section summary
            (Some (float_of_Z 500)) (Some (float_of_Z 1000))) st)
  = inr (DecisionEvent
           (ClaimDecision.Build (ClaimInfo.claim_number c) true
              (float_of_Z 500) (float_of_Z 1000) (Some summary)))
  /\
  (contains "covered" (lower summary) = false ->
   fst (finalize_decision self
          (PolicyRecommendation.Build section summary None None) st)
   = inr (DecisionEvent
            (ClaimDecision.Build (ClaimInfo.claim_number c) false
               float_zero float_zero (Some summary)))).
Proof.
  intros H. split.
  - destruct (finalize_decision_returns self
                (PolicyRecommendation.Build section summary
                   (Some (float_of_Z 500)) (Some (float_of_Z 1000))) st c H)
      as [st' [E _]].
    rewrite E. cbn [fst PolicyRecommendation.settlement_amount
                    PolicyRecommendation.deductible
                    PolicyRecommendation.recommendation_summary].
    replace (float_gt (float_of_Z 1000) float_zero) with true by reflexivity.
    by rewrite orb_true_r.
  - intros Hno.
    destruct (finalize_decision_returns self
                (PolicyRecommendation.Build section summary None None) st c H)
      as [st' [E _]].
    rewrite E. cbn [fst PolicyRecommendation.settlement_amount
                    PolicyRecommendation.deductible
                    PolicyRecommendation.recommendation_summary].
    by rewrite Hno.
Qed.

Lemma finalize_decision_scenarios_witness :
  fst (finalize_decision (sample_workflow [] true)
         (PolicyRecommendation.Build "Collision Coverage"
            "...Collision Coverage... $500 deductible"
            (Some (float_of_Z 500)) (Some (float_of_Z 1000)))
         (loaded_state john))
  = inr (DecisionEvent
           (ClaimDecision.Build "CLAIM-0001" true (float_of_Z 500)
              (float_of_Z 1000)
              (Some "...Collision Coverage... $500 deductible")))
  /\
  fst (finalize_decision (sample_workflow [] true)
         (PolicyRecommendation.Build "Collision Coverage"
            "...Collision Coverage... $500 deductible" None None)
         (loaded_state john))
  = inr (DecisionEvent
           (ClaimDecision.Build "CLAIM-0001" false float_zero float_zero
              (Some "...Collision Coverage... $500 deductible"))).
Proof.
  destruct (finalize_decision_scenarios (sample_workflow [] true)
              (loaded_state john) john "Collision Coverage"
              "...Collision Coverage... $500 deductible")
    as [H1 H2].
  - reflexivity.
  - split; [exact H1 | apply H2; reflexivity].
Defined.

(** C8: the finalizer is a function of the recommendation and the stored
    claim alone.  Two runs that agree on both return the same decision,
    whatever their workflow objects (LLM, retriever, verbosity), event
    streams and call histories; and the finalizer calls no service and
    leaves the context as it was. *)
Theorem finalize_decision_deterministic (self1 self2 : AutoInsuranceWorkflow)
    (rec : PolicyRecommendation.t) (st1 st2 : RunState) :
  ctx st1 !! "claim_info" = ctx st2 !! "claim_info" ->
  fst (finalize_decision self1 rec st1) = fst (finalize_decision self2 rec st2)
  /\ calls (snd (finalize_decision self1 rec st1)) = calls st1
  /\ calls (snd (finalize_decision self2 rec st2)) = calls st2
  /\ ctx (snd (finalize_decision self1 rec st1)) = ctx st1
  /\ ctx (snd (finalize_decision self2 rec st2)) = ctx st2.
Proof.
  intros H. unfold finalize_decision. step_unfold.
  destruct (_verbose self1), (_verbose self2); simpl; rewrite <- H;
    destruct (ctx st1 !! "claim_info") as [[c|s]|]; simpl; auto.
Qed.

Lemma finalize_decision_deterministic_witness :
  fst (finalize_decision (sample_workflow [] true) john_recommendation
         (loaded_state john))
  = fst (finalize_decision (sample_workflow ["q"] false) john_recommendation
           {| ctx := <["policy_text" := VStr "text"]> (ctx (loaded_state john));
              stream := [{| msg := Text "earlier"; delta := false |}];
              calls := [call_load "john.json" (inr john_json)] |}).
Proof.
  apply (finalize_decision_deterministic (sample_workflow [] true)
           (sample_workflow ["q"] false) john_recommendation
           (loaded_state john)
           {| ctx := <["policy_text" := VStr "text"]> (ctx (loaded_state john));
              stream := [{| msg := Text "earlier"; delta := false |}];
              calls := [call_load "john.json" (inr john_json)] |}).
  reflexivity.
Defined.

(** ** The query generator *)

(** C6: the query generator fails exactly when the LLM call raises, with the
    exception of the call (a response that does not parse into
    [PolicyQueries] is raised inside [astructured_predict]); any query set
    the call returns, the empty one included, is passed on in a
    [PolicyQueryEvent]. *)
Theorem generate_policy_queries_result (self : AutoInsuranceWorkflow)
    (claim_info : ClaimInfo.t) (st : RunState) :
  fst (generate_policy_queries self claim_info st)
  = match llm_predict_queries self (calls st) claim_info with
    | inl e => inl e
    | inr queries => inr (PolicyQueryEvent queries)
    end.
Proof.
  unfold generate_policy_queries. step_unfold.
  destruct (_verbose self); simpl;
    by destruct (llm_predict_queries self (calls st) claim_info).
Qed.

(** An empty query set does not make the query generator fail. *)
Lemma generate_policy_queries_empty_accepted :
  llm_predict_queries (sample_workflow [] false) (calls initial_state) john
  = inr (PolicyQueries.Build [])
  /\ fst (generate_policy_queries (sample_workflow [] false) john initial_state)
     = inr (PolicyQueryEvent (PolicyQueries.Build []))
  /\ ~ (forall self claim_info st,
          llm_predict_queries self (calls st) claim_info
          = inr (PolicyQueries.Build []) ->
          exists e, fst (generate_policy_queries self claim_info st) = inl e).
Proof.
  split; [reflexivity|]. split; [reflexivity|].
  intros H.
  destruct (H (sample_workflow [] false) john initial_state eq_refl) as [e He].
  discriminate He.
Qed.

(** ** The claim loader *)

Lemma required_str_spec (d : dict json) (field s : string) :
  required validate_str d field = Some s <-> dict_get field d = Some (JStr s).
Proof.
  unfold required. destruct (dict_get field d) as [v|]; [|by split].
  destruct v; simpl; split; intros H; by inversion H.
Qed.

Lemma required_float_spec (lax_float : json -> option float) (d : dict json)
    (field : string) (f : float) :
  required lax_float d field = Some f
  <-> exists v, dict_get field d = Some v /\ lax_float v = Some f.
Proof.
  unfold required. destruct (dict_get field d) as [v|].
  - split; [eauto | by intros [v' [[= <-] H]]].
  - split; [discriminate | by intros [v' [H _]]].
Qed.

Lemma validate_optional_str_spec (v : option json) (o : option string) :
  validate_optional_str v = Some o
  <-> match o with
      | Some s => v = Some (JStr s)
      | None => v = None \/ v = Some JNull
      end.
Proof.
  destruct v as [[]|], o; simpl; split; intros H;
    try discriminate; try (by inversion H); auto;
    try (destruct H; discriminate).
Qed.

(** [model_validate] returns a claim exactly for the data that validate as
    it, and raises nothing but [ValidationError]. *)
Lemma model_validate_spec (lax_float : json -> option float) (data : json)
    (c : ClaimInfo.t) :
  model_validate lax_float data = inr c <-> valid_claim lax_float data c.
Proof.
  unfold valid_claim. split.
  - destruct data; simpl; try discriminate.
    destruct (required validate_str d "claim_number") as [cn|] eqn:E1; [|discriminate].
    destruct (required validate_str d "policy_number") as [pn|] eqn:E2; [|discriminate].
    destruct (required validate_str d "claimant_name") as [nm|] eqn:E3; [|discriminate].
    destruct (required validate_str d "date_of_loss") as [dt|] eqn:E4; [|discriminate].
    destruct (required validate_str d "loss_description") as [ds|] eqn:E5; [|discriminate].
    destruct (required lax_float d "estimated_repair_cost") as [co|] eqn:E6; [|discriminate].
    destruct (validate_optional_str (dict_get "vehicle_details" d)) as [ve|] eqn:E7;
      [|discriminate].
    intros [= <-]. exists d. simpl.
    apply required_str_spec in E1, E2, E3, E4, E5.
    apply required_float_spec in E6. apply validate_optional_str_spec in E7.
    auto 10.
  - intros [d [-> [H1 [H2 [H3 [H4 [H5 [H6 H7]]]]]]]].
    apply required_str_spec in H1, H2, H3, H4, H5.
    apply required_float_spec in H6. apply validate_optional_str_spec in H7.
    simpl. rewrite H1, H2, H3, H4, H5, H6, H7. by destruct c.
Qed.

Lemma model_validate_error (lax_float : json -> option float) (data : json)
    (e : exn) :
  model_validate lax_float data = inl e -> e = ValidationError.
Proof.
  destruct data; simpl; try (by intros [= <-]).
  repeat (match goal with
          | |- context [match ?x with Some _ => _ | None => _ end] =>
              destruct x
          end; try (by intros [= <-])).
Qed.

Lemma valid_claim_fields (lax_float : json -> option float) (d : dict json)
    (c : ClaimInfo.t) (field : string) :
  valid_claim lax_float (JDict d) c ->
  (In field required_fields -> exists v, dict_get field d = Some v) /\
  (In field str_fields -> exists s, dict_get field d = Some (JStr s)).
Proof.
  intros [d' [[= <-] [H1 [H2 [H3 [H4 [H5 [[v [H6 _]] _]]]]]]]].
  split.
  - unfold required_fields, str_fields. simpl.
    intros [<-|[<-|[<-|[<-|[<-|[<-|[]]]]]]]; eauto.
  - unfold str_fields. simpl.
    intros [<-|[<-|[<-|[<-|[<-|[]]]]]]; eauto.
Qed.

(** C7: the loader returns a claim only for data that validate as this
    claim; on data that validate as no claim it raises [ValidationError]
    (MalformedClaim), which is the case when the data are not an object,
    when a required field is missing and when a [str] field holds anything
    but a string; and when the source cannot be read it raises what the read
    raised. *)
Theorem parse_claim_outcome (lax_float : json -> option float) (G : Services)
    (file_path : string) (st : RunState) :
  ((exists data c,
       load_json G (calls st) file_path = inr data /\
       valid_claim lax_float data c /\
       fst (parse_claim lax_float G file_path st) = inr c)
   \/ (exists data,
         load_json G (calls st) file_path = inr data /\
         (forall c, ~ valid_claim lax_float data c) /\
         fst (parse_claim lax_float G file_path st) = inl MalformedClaim)
   \/ (exists e,
         load_json G (calls st) file_path = inl e /\
         fst (parse_claim lax_float G file_path st) = inl e))
  /\
  (forall data,
     load_json G (calls st) file_path = inr data ->
     (forall d, data <> JDict d)
     \/ (exists d field,
           data = JDict d /\ In field required_fields /\
           dict_get field d = None)
     \/ (exists d field v,
           data = JDict d /\ In field str_fields /\
           dict_get field d = Some v /\ forall s, v <> JStr s) ->
     fst (parse_claim lax_float G file_path st) = inl MalformedClaim).
Proof.
  unfold parse_claim. step_unfold.
  destruct (load_json G (calls st) file_path) as [e|data] eqn:Hsrc.
  - split; [right; right; eauto | discriminate].
  - destruct (model_validate lax_float data) as [e|c] eqn:Hv.
    + apply model_validate_error in Hv as Hv'. subst e. split.
      * right. left. exists data. split; [reflexivity|]. split; [|reflexivity].
        intros c Hc. apply model_validate_spec in Hc. congruence.
      * reflexivity.
    + apply model_validate_spec in Hv. split.
      * left. exists data, c. by split.
      * intros data' [= <-] [Hno | [[d [field [-> [Hin Hnone]]]]
                                   | [d [field [v [-> [Hin [Hv' Hns]]]]]]]].
        -- destruct Hv as [d [-> _]]. by destruct (Hno d).
        -- destruct (valid_claim_fields _ _ _ field Hv) as [Hreq _].
           destruct (Hreq Hin) as [v Hv']. congruence.
        -- destruct (valid_claim_fields _ _ _ field Hv) as [_ Hstr].
           destruct (Hstr Hin) as [s Hs]. rewrite Hs in Hv'.
           injection Hv' as <-. by destruct (Hns s).
Qed.

Example parse_claim_john :
  fst (parse_claim strict_float (sample_services []) "john.json" initial_state)
  = inr john.
Proof. reflexivity. Qed.

Example parse_claim_missing_file :
  fst (parse_claim strict_float (sample_services []) "alice.json" initial_state)
  = inl OSError.
Proof. reflexivity. Qed.

Example parse_claim_wrong_type :
  fst (parse_claim strict_float
         {| load_json := fun _ _ =>
              inr (JDict [("claim_number", JInt 1)]);
            declarations_retrieve := fun _ _ _ => inr [] |}
         "john.json" initial_state)
  = inl MalformedClaim.
Proof. reflexivity. Qed.

Lemma parse_claim_outcome_witness :
  fst (parse_claim strict_float
         {| load_json := fun _ _ =>
              inr (JDict [("claim_number", JInt 1)]);
            declarations_retrieve := fun _ _ _ => inr [] |}
         "john.json" initial_state)
  = inl MalformedClaim.
Proof.
  apply (proj2 (parse_claim_outcome strict_float
                  {| load_json := fun _ _ =>
                       inr (JDict [("claim_number", JInt 1)]);
                     declarations_retrieve := fun _ _ _ => inr [] |}
                  "john.json" initial_state)
               (JDict [("claim_number", JInt 1)]) eq_refl).
  right. right. exists [("claim_number", JInt 1)], "claim_number", (JInt 1).
  split; [reflexivity|]. split; [simpl; auto|]. split; [reflexivity|].
  discriminate.
Defined.

(** ** Retrieval: merging by document id *)

Lemma first_seen_In (x : string) (l : list string) :
  In x (first_seen l) <-> In x l.
Proof.
  induction l as [|y l IH]; simpl; [tauto|].
  rewrite filter_In, IH. destruct (String.eqb_spec y x) as [->|Hne]; simpl.
  - split; auto.
  - split; [intros [H|[H _]]; auto | intros [H|H]; auto].
Qed.

Lemma first_seen_NoDup (l : list string) : List.NoDup (first_seen l).
Proof.
  induction l as [|y l IH]; simpl; constructor.
  - rewrite filter_In. intros [_ H]. by rewrite String.eqb_refl in H.
  - by apply List.NoDup_filter.
Qed.

Lemma first_seen_snoc (l : list string) (x : string) :
  first_seen (l ++ [x])
  = if existsb (String.eqb x) l then first_seen l else first_seen l ++ [x].
Proof.
  induction l as [|y l IH]; simpl; [reflexivity|].
  rewrite IH. destruct (String.eqb_spec x y) as [->|Hne]; simpl.
  - destruct (existsb (String.eqb y) l); [reflexivity|].
    rewrite List.filter_app. simpl. rewrite String.eqb_refl. simpl.
    by rewrite app_nil_r.
  - destruct (existsb (String.eqb x) l); [reflexivity|].
    rewrite List.filter_app. simpl.
    destruct (String.eqb_spec y x) as [->|_]; [congruence | reflexivity].
Qed.

Lemma last_with_id_snoc (i : string) (seq : list NodeWithScore)
    (x : NodeWithScore) :
  last_with_id i (seq ++ [x])
  = if String.eqb i (id_ x) then Some x else last_with_id i seq.
Proof.
  induction seq as [|y seq IH]; simpl.
  - by destruct (String.eqb i (id_ x)).
  - rewrite IH. destruct (String.eqb i (id_ x)); [reflexivity|].
    by destruct (last_with_id i seq).
Qed.

Lemma dict_get_set {V} (i k : string) (v : V) (d : dict V) :
  dict_get i (dict_set k v d) = if String.eqb i k then Some v else dict_get i d.
Proof.
  induction d as [|[k' v'] d IH]; simpl; [reflexivity|].
  destruct (String.eqb_spec k k') as [->|Hne]; simpl.
  - by destruct (String.eqb i k').
  - rewrite IH. destruct (String.eqb_spec i k') as [->|_]; [|reflexivity].
    destruct (String.eqb_spec k' k) as [->|_]; [congruence | reflexivity].
Qed.

Lemma dict_keys_set {V} (k : string) (v : V) (d : dict V) :
  dict_keys (dict_set k v d)
  = if existsb (String.eqb k) (dict_keys d) then dict_keys d
    else dict_keys d ++ [k].
Proof.
  unfold dict_keys. induction d as [|[k' v'] d IH]; simpl; [reflexivity|].
  destruct (String.eqb k k') eqn:E; simpl.
  - apply String.eqb_eq in E. by subst.
  - rewrite IH. by destruct (existsb (String.eqb k) (map fst d)).
Qed.

(** A key that is not in the dict yet goes to the end. *)
Lemma dict_set_fresh {V} (k : string) (v : V) (d : dict V) :
  ~ In k (dict_keys d) -> dict_set k v d = d ++ [(k, v)].
Proof.
  unfold dict_keys. induction d as [|[k' v'] d IH]; simpl; [reflexivity|].
  intros H. destruct (String.eqb_spec k k') as [->|_]; [tauto|].
  rewrite IH; [reflexivity | tauto].
Qed.

Lemma existsb_eqb_first_seen (x : string) (l : list string) :
  existsb (String.eqb x) (first_seen l) = existsb (String.eqb x) l.
Proof.
  apply eq_true_iff_eq. rewrite !existsb_exists.
  split; intros [y [Hy E]]; exists y; split; auto; by apply first_seen_In.
Qed.

Lemma Forall_dict_set {V} (P : string * V -> Prop) (k : string) (v : V)
    (d : dict V) :
  P (k, v) -> Forall P d -> Forall P (dict_set k v d).
Proof.
  intros Hk. induction 1 as [|[k' v'] d Hx Hd IH]; simpl.
  - by constructor.
  - destruct (String.eqb k k'); constructor; auto.
Qed.

Lemma holds_set (d : dict NodeWithScore) (seq : list NodeWithScore)
    (x : NodeWithScore) :
  holds d seq -> holds (dict_set (id_ x) x d) (seq ++ [x]).
Proof.
  intros [Hk [Hf Hg]]. split; [|split].
  - rewrite dict_keys_set, Hk, map_app. simpl.
    by rewrite first_seen_snoc, existsb_eqb_first_seen.
  - by apply Forall_dict_set.
  - intros i. by rewrite dict_get_set, last_with_id_snoc, Hg.
Qed.

Lemma holds_merge_docs (docs : list NodeWithScore) (d : dict NodeWithScore)
    (seq : list NodeWithScore) :
  holds d seq -> holds (merge_docs docs d) (seq ++ docs).
Proof.
  revert d seq. induction docs as [|x docs IH]; intros d seq H; simpl.
  - by rewrite app_nil_r.
  - replace (seq ++ x :: docs) with ((seq ++ [x]) ++ docs)
      by (by rewrite <- app_assoc).
    apply IH. by apply holds_set.
Qed.

Lemma holds_values_ids (d : dict NodeWithScore) (seq : list NodeWithScore) :
  holds d seq -> map id_ (dict_values d) = first_seen (map id_ seq).
Proof.
  intros [Hk [Hf _]]. rewrite <- Hk. unfold dict_values, dict_keys.
  clear Hk. induction Hf as [|[k v] d Hx Hd IH]; simpl; [reflexivity|].
  simpl in Hx. by rewrite Hx, IH.
Qed.

Lemma dict_get_In {V} (k : string) (v : V) (d : dict V) :
  List.NoDup (dict_keys d) -> In (k, v) d -> dict_get k d = Some v.
Proof.
  unfold dict_keys. induction d as [|[k' v'] d IH]; simpl; [tauto|].
  intros Hnd [[= -> ->]|Hin].
  - by rewrite String.eqb_refl.
  - inversion Hnd as [|? ? Hk' Hnd']; subst.
    destruct (String.eqb_spec k k') as [->|_]; [|auto].
    exfalso. apply Hk'. apply in_map_iff. by exists (k', v).
Qed.

Lemma holds_values_last (d : dict NodeWithScore) (seq : list NodeWithScore)
    (x : NodeWithScore) :
  holds d seq -> In x (dict_values d) -> last_with_id (id_ x) seq = Some x.
Proof.
  intros [Hk [Hf Hg]] Hin. unfold dict_values in Hin.
  apply in_map_iff in Hin as [[k v] [E Hin]]. simpl in E. subst v.
  rewrite <- Hg.
  assert (id_ x = k) as <-.
  { rewrite List.Forall_forall in Hf. exact (Hf _ Hin). }
  apply dict_get_In; [|exact Hin]. rewrite Hk. apply first_seen_NoDup.
Qed.

(** The loop over the queries merges their results in order. *)
Lemma fold_merge_docs (results : list (list NodeWithScore))
    (d : dict NodeWithScore) :
  fold_left (fun acc docs => merge_docs docs acc) results d
  = merge_docs (concat results) d.
Proof.
  revert d. induction results as [|docs results IH]; intros d; simpl.
  - reflexivity.
  - rewrite IH. unfold merge_docs. by rewrite fold_left_app.
Qed.

Lemma retrieve_queries_answers (self : AutoInsuranceWorkflow)
    (queries : list string) :
  forall (results : list (list NodeWithScore)) (h' : list call) (st : RunState)
         (combined_docs : dict NodeWithScore),
    answers self (calls st) queries results h' ->
    exists st',
      retrieve_queries self queries combined_docs st
      = (inr (merge_docs (concat results) combined_docs), st') /\
      calls st' = h' /\ ctx st' = ctx st.
Proof.
  induction queries as [|query queries IH];
    intros [|docs results] h' st combined_docs H; simpl in H; try tauto.
  - subst h'. exists st. by simpl.
  - destruct H as [Hr Ha]. cbn [retrieve_queries]. unfold bind at 1 2.
    assert (exists st1, log self (TextQuery ">> Query: " query) st = (inr tt, st1)
                        /\ calls st1 = calls st /\ ctx st1 = ctx st)
      as [st1 [E1 [Hc1 Hx1]]].
    { unfold log, write_event_to_stream, ret.
      destruct (_verbose self); eauto. }
    rewrite E1. unfold external at 1. rewrite Hc1, Hr.
    set (st2 := {| ctx := ctx st1; stream := stream st1;
                   calls := calls st ++ [call_aretrieve query (inr docs)] |}).
    destruct (IH results h' st2 (merge_docs docs combined_docs) Ha)
      as [st' [E [Hc Hx]]].
    exists st'. rewrite E. split; [|split; [exact Hc | by rewrite Hx]].
    simpl. unfold merge_docs. by rewrite fold_left_app.
Qed.

(** What [retrieve_policy_text] returns when the claim is in the context,
    the retriever answers every query and the lookup is not empty. *)
Lemma retrieve_policy_text_returns (G : Services) (self : AutoInsuranceWorkflow)
    (queries : PolicyQueries.t) (st : RunState) (c : ClaimInfo.t)
    (results : list (list NodeWithScore)) (h' : list call)
    (d_doc : NodeWithScore) (rest : list NodeWithScore) :
  ctx st !! "claim_info" = Some (VClaimInfo c) ->
  answers self (calls st) (PolicyQueries.queries queries) results h' ->
  declarations_retrieve G h' (ClaimInfo.policy_number c) 1
  = inr (d_doc :: rest) ->
  exists st',
    retrieve_policy_text G self queries st
    = (inr (PolicyMatchedEvent
              (join blank_line
                 (map get_content
                    (dict_values
                       (dict_set (id_ d_doc) d_doc
                          (merge_docs (concat results) [])))))), st') /\
    ctx st'
    = <["policy_text" :=
          VStr (join blank_line
                  (map get_content
                     (dict_values
                        (dict_set (id_ d_doc) d_doc
                           (merge_docs (concat results) [])))))]> (ctx st).
Proof.
  intros Hctx Ha Hd. unfold retrieve_policy_text. unfold bind at 1 2.
  assert (exists st1, log self (Text ">> Retrieving policy sections") st
                      = (inr tt, st1)
                      /\ calls st1 = calls st /\ ctx st1 = ctx st)
    as [st1 [E1 [Hc1 Hx1]]].
  { unfold log, write_event_to_stream, ret. destruct (_verbose self); eauto. }
  rewrite E1. unfold ctx_get at 1. rewrite Hx1, Hctx.
  rewrite <- Hc1 in Ha.
  destruct (retrieve_queries_answers self _ results h' st1 [] Ha)
    as [st2 [E2 [Hc2 Hx2]]].
  unfold bind at 1. rewrite E2.
  unfold bind, as_claim_info, get_declarations_docs, external, subscript0,
    ctx_set, ret. simpl.
  rewrite Hc2, Hd. simpl. eexists. split; [reflexivity|].
  simpl. by rewrite Hx2, Hx1.
Qed.

(** C3: the policy text is the texts of a list of nodes joined by a blank
    line; the ids of these nodes are the distinct ids of the query results
    followed by the declaration, each once, in first-seen order; each node
    is the last one returned under its id; and a declaration whose id no
    query returned comes last. *)
Theorem retrieve_policy_text_merged (G : Services)
    (self : AutoInsuranceWorkflow) (queries : PolicyQueries.t) (st : RunState)
    (c : ClaimInfo.t) (results : list (list NodeWithScore)) (h' : list call)
    (d_doc : NodeWithScore) (rest : list NodeWithScore) :
  ctx st !! "claim_info" = Some (VClaimInfo c) ->
  answers self (calls st) (PolicyQueries.queries queries) results h' ->
  declarations_retrieve G h' (ClaimInfo.policy_number c) 1
  = inr (d_doc :: rest) ->
  exists docs st',
    retrieve_policy_text G self queries st
    = (inr (PolicyMatchedEvent (join blank_line (map get_content docs))), st') /\
    map id_ docs = first_seen (map id_ (concat results ++ [d_doc])) /\
    List.NoDup (map id_ docs) /\
    (forall d, In d docs ->
               last_with_id (id_ d) (concat results ++ [d_doc]) = Some d) /\
    (~ In (id_ d_doc) (map id_ (concat results)) ->
     exists docs_q,
       docs = docs_q ++ [d_doc] /\
       map id_ docs_q = first_seen (map id_ (concat results))).
Proof.
  intros Hctx Ha Hd.
  destruct (retrieve_policy_text_returns G self queries st c results h' d_doc
              rest Hctx Ha Hd) as [st' [E _]].
  assert (holds (merge_docs (concat results) []) (concat results)) as Hq.
  { apply (holds_merge_docs (concat results) [] []).
    split; [reflexivity|]. split; [constructor | reflexivity]. }
  pose proof (holds_set _ _ d_doc Hq) as Hall.
  eexists _, st'. split; [exact E|].
  split; [by apply holds_values_ids|].
  split; [rewrite (holds_values_ids _ _ Hall); apply first_seen_NoDup|].
  split; [intros d Hin; by apply (holds_values_last _ _ _ Hall)|].
  intros Hfresh. exists (dict_values (merge_docs (concat results) [])).
  split; [|by apply holds_values_ids].
  rewrite dict_set_fresh.
  - unfold dict_values. by rewrite map_app.
  - destruct Hq as [Hk _]. rewrite Hk. by rewrite first_seen_In.
Qed.

Example retrieve_policy_text_shared_id :
  fst (retrieve_policy_text (sample_services [doc "decl" "DECL"])
         (sample_workflow ["q1"; "q2"] true)
         (PolicyQueries.Build ["q1"; "q2"]) (loaded_state john))
  = inr (PolicyMatchedEvent
           (join blank_line ["A"; "q1"; "q2"; "DECL"])).
Proof. reflexivity. Qed.

(** A declaration stored under an id a query already returned takes the
    place of that node. *)
Example retrieve_policy_text_declaration_id_seen :
  fst (retrieve_policy_text (sample_services [doc "a" "DECL"])
         (sample_workflow ["q1"] true)
         (PolicyQueries.Build ["q1"]) (loaded_state john))
  = inr (PolicyMatchedEvent (join blank_line ["DECL"; "q1"])).
Proof. reflexivity. Qed.

Lemma retrieve_policy_text_merged_witness :
  exists docs st',
    retrieve_policy_text (sample_services [doc "decl" "DECL"])
      (sample_workflow ["q1"; "q2"] true)
      (PolicyQueries.Build ["q1"; "q2"]) (loaded_state john)
    = (inr (PolicyMatchedEvent (join blank_line (map get_content docs))), st') /\
    map id_ docs = ["a"; "q1"; "q2"; "decl"] /\
    List.NoDup (map id_ docs).
Proof.
  destruct (retrieve_policy_text_merged (sample_services [doc "decl" "DECL"])
              (sample_workflow ["q1"; "q2"] true)
              (PolicyQueries.Build ["q1"; "q2"]) (loaded_state john) john
              [[doc "a" "A"; doc "q1" "q1"]; [doc "a" "A"; doc "q2" "q2"]]
              [call_aretrieve "q1" (inr [doc "a" "A"; doc "q1" "q1"]);
               call_aretrieve "q2" (inr [doc "a" "A"; doc "q2" "q2"])]
              (doc "decl" "DECL") [])
    as [docs [st' [E [Hids [Hnd _]]]]].
  - reflexivity.
  - simpl. repeat split.
  - reflexivity.
  - exists docs, st'. split; [exact E|]. split; [exact Hids | exact Hnd].
Defined.

(** C10: a lookup that returns several declaration documents does not make
    the step fail; the step merges the first of them and returns what it
    returns when the lookup gives that document alone. *)
Theorem retrieve_policy_text_first_declaration (G G' : Services)
    (self : AutoInsuranceWorkflow) (queries : PolicyQueries.t) (st : RunState)
    (c : ClaimInfo.t) (results : list (list NodeWithScore)) (h' : list call)
    (d_doc : NodeWithScore) (rest : list NodeWithScore) :
  ctx st !! "claim_info" = Some (VClaimInfo c) ->
  answers self (calls st) (PolicyQueries.queries queries) results h' ->
  declarations_retrieve G h' (ClaimInfo.policy_number c) 1
  = inr (d_doc :: rest) ->
  declarations_retrieve G' h' (ClaimInfo.policy_number c) 1 = inr [d_doc] ->
  exists policy_text st1 st2,
    retrieve_policy_text G self queries st
    = (inr (PolicyMatchedEvent policy_text), st1) /\
    retrieve_policy_text G' self queries st
    = (inr (PolicyMatchedEvent policy_text), st2) /\
    ctx st1 = ctx st2 /\
    policy_text
    = join blank_line
        (map get_content
           (dict_values
              (dict_set (id_ d_doc) d_doc (merge_docs (concat results) [])))).
Proof.
  intros Hctx Ha Hd Hd'.
  destruct (retrieve_policy_text_returns G self queries st c results h' d_doc
              rest Hctx Ha Hd) as [st1 [E1 Hx1]].
  destruct (retrieve_policy_text_returns G' self queries st c results h' d_doc
              [] Hctx Ha Hd') as [st2 [E2 Hx2]].
  eexists _, st1, st2. split; [exact E1|]. split; [exact E2|].
  split; [by rewrite Hx1, Hx2 | reflexivity].
Qed.

Lemma retrieve_policy_text_first_declaration_witness :
  exists st1 st2,
    retrieve_policy_text
      (sample_services [doc "decl" "DECL"; doc "other" "OTHER"])
      (sample_workflow ["q1"] false) (PolicyQueries.Build ["q1"])
      (loaded_state john)
    = (inr (PolicyMatchedEvent (join blank_line ["A"; "q1"; "DECL"])), st1) /\
    retrieve_policy_text (sample_services [doc "decl" "DECL"])
      (sample_workflow ["q1"] false) (PolicyQueries.Build ["q1"])
      (loaded_state john)
    = (inr (PolicyMatchedEvent (join blank_line ["A"; "q1"; "DECL"])), st2).
Proof.
  destruct (retrieve_policy_text_first_declaration
              (sample_services [doc "decl" "DECL"; doc "other" "OTHER"])
              (sample_services [doc "decl" "DECL"])
              (sample_workflow ["q1"] false) (PolicyQueries.Build ["q1"])
              (loaded_state john) john
              [[doc "a" "A"; doc "q1" "q1"]]
              [call_aretrieve "q1" (inr [doc "a" "A"; doc "q1" "q1"])]
              (doc "decl" "DECL") [doc "other" "OTHER"])
    as [text [st1 [st2 [E1 [E2 [_ Ht]]]]]].
  - reflexivity.
  - simpl. repeat split.
  - reflexivity.
  - reflexivity.
  - exists st1, st2. subst text. split; [exact E1 | exact E2].
Defined.

(** ** The run: dispatch, order of the steps, failures *)

(** Split a step into the results of the operations it binds. *)
Ltac bind_cases :=
  unfold bind;
  repeat match goal with
         | |- context [match ?x with (_, _) => _ end] =>
             destruct x as [[?|?] ?] eqn:?
         end.

(** The primitive operations make no call. *)
Lemma log_calls (self : AutoInsuranceWorkflow) (m : message) (st : RunState)
    (r : exn + unit) (st' : RunState) :
  log self m st = (r, st') -> r = inr tt /\ calls st' = calls st.
Proof.
  unfold log, write_event_to_stream, ret.
  destruct (_verbose self); by intros [= <- <-].
Qed.

Lemma ctx_get_calls (key : string) (st : RunState) (r : exn + ctx_value)
    (st' : RunState) :
  ctx_get key st = (r, st') -> st' = st.
Proof. unfold ctx_get. destruct (ctx st !! key); by intros [= <- <-]. Qed.

Lemma ctx_set_calls (key : string) (v : ctx_value) (st : RunState)
    (r : exn + unit) (st' : RunState) :
  ctx_set key v st = (r, st') -> r = inr tt /\ calls st' = calls st.
Proof. unfold ctx_set. by intros [= <- <-]. Qed.

Lemma as_claim_info_calls (v : ctx_value) (st : RunState)
    (r : exn + ClaimInfo.t) (st' : RunState) :
  as_claim_info v st = (r, st') -> st' = st.
Proof. unfold as_claim_info, ret, raise. destruct v; by intros [= <- <-]. Qed.

Lemma external_calls {R} (f : list call -> exn + R) (entry : exn + R -> call)
    (st : RunState) (r : exn + R) (st' : RunState) :
  external f entry st = (r, st') -> calls st' = calls st ++ [entry r].
Proof. unfold external. by intros [= <- <-]. Qed.

Lemma parse_claim_calls (lax_float : json -> option float) (G : Services)
    (file_path : string) (st : RunState) (r : exn + ClaimInfo.t)
    (st' : RunState) :
  parse_claim lax_float G file_path st = (r, st') ->
  exists resp, calls st' = calls st ++ [call_load file_path resp].
Proof.
  unfold parse_claim, bind, external, ret, raise.
  destruct (load_json G (calls st) file_path) as [e|data]; simpl.
  - intros [= <- <-]. simpl. eauto.
  - destruct (model_validate lax_float data); intros [= <- <-]; simpl; eauto.
Qed.

Lemma retrieve_queries_calls (self : AutoInsuranceWorkflow)
    (queries : list string) :
  forall (combined_docs : dict NodeWithScore) (st : RunState)
         (r : exn + dict NodeWithScore) (st' : RunState),
    retrieve_queries self queries combined_docs st = (r, st') ->
    exists extra,
      calls st' = calls st ++ extra /\
      Forall (fun c => may_call Step_retrieve_policy_text c = true
                       /\ is_empty_lookup c = false
                       /\ is_recommendation_call c = false) extra.
Proof.
  induction queries as [|query queries IH]; intros combined_docs st r st'.
  - intros [= <- <-]. exists []. by rewrite app_nil_r.
  - cbn [retrieve_queries]. bind_cases.
    all: try match goal with
             | H : log _ _ _ = (inl _, _) |- _ =>
                 apply log_calls in H as [? _]; discriminate
             end.
    + apply external_calls in Heqp0. apply log_calls in Heqp as [_ Hl].
      intros [= <- <-]. eexists. rewrite Heqp0, Hl. split; [reflexivity|].
      by repeat constructor.
    + apply external_calls in Heqp0. apply log_calls in Heqp as [_ Hl].
      intros H. apply IH in H as [extra [Hc Hf]].
      eexists. rewrite Hc, Heqp0, Hl, <- app_assoc. split; [reflexivity|].
      constructor; [by repeat constructor | exact Hf].
Qed.
Lemma accepts_stage (s : step) (ev : Event) :
  accepts s ev = true -> nth_error all_steps (stage ev) = Some s.
Proof. destruct s, ev; simpl; by try discriminate. Qed.

Lemma subscript0_calls {A} (l : list A) (st : RunState) (r : exn + A)
    (st' : RunState) :
  subscript0 l st = (r, st') ->
  st' = st /\ r = match l with
                  | [] => inl IndexError
                  | x :: _ => inr x
                  end.
Proof. unfold subscript0, ret, raise. by destruct l; intros [= <- <-]. Qed.

Ltac calls_facts :=
  repeat match goal with
         | H : log _ _ _ = _ |- _ => apply log_calls in H as [? ?]
         | H : ctx_get _ _ = _ |- _ => apply ctx_get_calls in H
         | H : ctx_set _ _ _ = _ |- _ => apply ctx_set_calls in H as [? ?]
         | H : as_claim_info _ _ = _ |- _ => apply as_claim_info_calls in H
         | H : get_declarations_docs _ _ _ _ = _ |- _ =>
             apply external_calls in H
         | H : external _ _ _ = _ |- _ => apply external_calls in H
         | H : parse_claim _ _ _ _ = _ |- _ =>
             apply parse_claim_calls in H as [? ?]
         | H : retrieve_queries _ _ _ _ = _ |- _ =>
             apply retrieve_queries_calls in H as [? [? ?]]
         | H : subscript0 _ _ = _ |- _ =>
             apply subscript0_calls in H as [? ?]
         end;
  subst; try discriminate.

Ltac calls_chain :=
  repeat match goal with
         | H : calls ?s = _ |- context [calls ?s] => rewrite H; clear H
         end;
  rewrite <- ?app_assoc.

Lemma existsb_Forall_false {A} (p : A -> bool) (P : A -> Prop) (l : list A) :
  (forall x, P x -> p x = false) -> List.Forall P l -> existsb p l = false.
Proof.
  intros Hp. induction 1 as [|x l Hx Hl IH]; simpl; [reflexivity|].
  by rewrite (Hp x Hx), IH.
Qed.

Ltac solve_may_call :=
  first
    [ by repeat constructor
    | eapply List.Forall_impl; [|eassumption]; simpl; intros ? ?; tauto
    | apply Forall_app; split;
      [ eapply List.Forall_impl; [|eassumption]; simpl; intros ? ?; tauto
      | by repeat constructor ] ].

Ltac solve_no_empty_lookup :=
  rewrite ?existsb_app;
  repeat match goal with
         | H : Forall _ ?x |- context [existsb is_empty_lookup ?x] =>
             rewrite (existsb_Forall_false is_empty_lookup _ x
                        (fun c Hc => proj1 (proj2 Hc)) H)
         end;
  simpl; try discriminate;
  try (match goal with
       | |- context [match ?l with nil => _ | cons _ _ => _ end] => destruct l
       end;
       simpl in *; first [discriminate | intros _; congruence]).

Ltac solve_calls :=
  unfold ret; intros [= <- <-]; calls_facts;
  first
    [ by (exists []; split; [calls_chain; by rewrite app_nil_r|];
          split; [constructor | simpl; discriminate])
    | eexists; split; [calls_chain; reflexivity|];
      split; [solve_may_call | solve_no_empty_lookup] ].

Lemma call_step_calls (lax_float : json -> option float) (G : Services)
    (self : AutoInsuranceWorkflow) (s : step) (ev : Event) (st : RunState)
    (r : exn + Event) (st' : RunState) :
  accepts s ev = true ->
  call_step lax_float G self s ev st = (r, st') ->
  exists extra,
    calls st' = calls st ++ extra /\
    Forall (fun c => may_call s c = true) extra /\
    (existsb is_empty_lookup extra = true -> r = inl IndexError).
Proof.
  destruct s, ev; try discriminate; intros _; cbn [call_step].
  - unfold load_claim_info. bind_cases. all: solve_calls.
  - unfold generate_policy_queries. bind_cases. all: solve_calls.
  - unfold retrieve_policy_text. bind_cases. all: solve_calls.
  - unfold generate_recommendation. bind_cases. all: solve_calls.
  - unfold finalize_decision. bind_cases. all: solve_calls.
  - unfold output_result. bind_cases. all: solve_calls.
Qed.

(** On success a step produces the event class of the next stage; the last
    step produces the final result and cannot raise. *)
Lemma call_step_output (lax_float : json -> option float) (G : Services)
    (self : AutoInsuranceWorkflow) (s : step) (ev out : Event)
    (st st' : RunState) :
  accepts s ev = true ->
  call_step lax_float G self s ev st = (inr out, st') ->
  stage out = S (stage ev) /\
  (forall d, ev = DecisionEvent d -> out = StopEvent [("decision", d)]).
Proof.
  destruct s, ev; try discriminate; intros _; cbn [call_step].
  - unfold load_claim_info. bind_cases; unfold ret; intros [= <- <-]; by split.
  - unfold generate_policy_queries. bind_cases; unfold ret; intros [= <- <-]; by split.
  - unfold retrieve_policy_text. bind_cases; unfold ret; intros [= <- <-]; by split.
  - unfold generate_recommendation. bind_cases; unfold ret; intros [= <- <-]; by split.
  - unfold finalize_decision. bind_cases; unfold ret; intros [= <- <-]; by split.
  - unfold output_result. bind_cases; unfold ret; intros [= <- <-].
    split; [reflexivity|]. by intros d [= ->].
Qed.

Lemma output_result_returns (self : AutoInsuranceWorkflow)
    (decision : ClaimDecision.t) (st : RunState) (e : exn) (st' : RunState) :
  output_result self decision st <> (inl e, st').
Proof.
  unfold output_result, bind, log, write_event_to_stream, ret.
  by destruct (_verbose self).
Qed.

Lemma classic_stop (ev : Event) :
  (exists result, ev = StopEvent result) \/ (forall result, ev <> StopEvent result).
Proof. destruct ev; try (by right); left; eauto. Qed.

(** One turn of the dispatch loop on a single pending event. *)
Lemma run_loop_turn (lax_float : json -> option float) (G : Services)
    (self : AutoInsuranceWorkflow) (fuel : nat) (ev : Event) (st : RunState)
    (trace : list step_record) :
  (forall result, ev <> StopEvent result) ->
  exists s,
    accepts s ev = true /\
    run_loop lax_float G self (S fuel) [ev] st trace
    = match call_step lax_float G self s ev st with
      | (inl e, st') =>
          {| run_outcome := Failed s e; run_state := st';
             run_trace :=
               trace ++ [{| ran := s; consumed := ev; produced := inl e |}] |}
      | (inr out, st') =>
          run_loop lax_float G self fuel [out] st'
            (trace ++ [{| ran := s; consumed := ev; produced := inr out |}])
      end.
Proof.
  intros Hstop.
  destruct ev;
    [ exists Step_load_claim_info | exists Step_generate_policy_queries
    | exists Step_retrieve_policy_text | exists Step_generate_recommendation
    | exists Step_finalize_decision | exists Step_output_result
    | by destruct (Hstop result) ];
    (split; [reflexivity|]);
    cbn [run_loop List.filter all_steps accepts deliver];
    by destruct (call_step _ _ _ _ _ _) as [[e|out] st'].
Qed.

(** Induction on a run: a property of the pending event, the state and the
    record that holds at the start and is kept by every step that returns,
    holds whenever the run ends, and the failure of a step is reached from a
    state that has it. *)
Lemma run_loop_inv (lax_float : json -> option float) (G : Services)
    (self : AutoInsuranceWorkflow)
    (Inv : Event -> RunState -> list step_record -> Prop)
    (P : run_result -> Prop) :
  (forall ev st trace,
      Inv ev st trace ->
      P {| run_outcome := OutOfFuel; run_state := st; run_trace := trace |}) ->
  (forall result st trace,
      Inv (StopEvent result) st trace ->
      P {| run_outcome := Done result; run_state := st; run_trace := trace |}) ->
  (forall s ev st trace,
      Inv ev st trace -> accepts s ev = true ->
      match call_step lax_float G self s ev st with
      | (inl e, st') =>
          P {| run_outcome := Failed s e; run_state := st';
               run_trace :=
                 trace ++ [{| ran := s; consumed := ev; produced := inl e |}] |}
      | (inr out, st') =>
          Inv out st'
            (trace ++ [{| ran := s; consumed := ev; produced := inr out |}])
      end) ->
  forall fuel ev st trace,
    Inv ev st trace -> P (run_loop lax_float G self fuel [ev] st trace).
Proof.
  intros Hfuel Hdone Hstep.
  induction fuel as [|fuel IH]; intros ev st trace HI.
  - by apply (Hfuel ev).
  - destruct (classic_stop ev) as [[result ->]|Hns].
    + by apply Hdone.
    + destruct (run_loop_turn lax_float G self fuel ev st trace Hns)
        as [s [Hacc ->]].
      specialize (Hstep s ev st trace HI Hacc).
      destruct (call_step lax_float G self s ev st) as [[e|out] st'];
        [exact Hstep | by apply IH].
Qed.

Lemma chained_snoc (ev0 ev : Event) (trace : list step_record)
    (r : step_record) :
  chained ev0 trace -> pending_after ev0 trace = Some ev -> consumed r = ev ->
  chained ev0 (trace ++ [r]) /\
  pending_after ev0 (trace ++ [r])
  = match produced r with
    | inr out => Some out
    | inl _ => None
    end.
Proof.
  revert ev0. induction trace as [|r0 trace IH]; intros ev0; simpl.
  - intros _ [= ->] Hc. split; [|reflexivity].
    split; [exact Hc | by destruct (produced r)].
  - intros [Hc0 Hch] Hp Hc. destruct (produced r0) as [e|out]; [discriminate|].
    destruct (IH out Hch Hp Hc) as [H1 H2]. by repeat split.
Qed.

Lemma stage_le (ev : Event) : stage ev <= 6.
Proof. destruct ev; simpl; lia. Qed.

(** Seven turns are enough for any run. *)
Lemma run_loop_fuel (lax_float : json -> option float) (G : Services)
    (self : AutoInsuranceWorkflow) (fuel : nat) :
  forall (ev : Event) (st : RunState) (trace : list step_record),
    7 <= fuel + stage ev ->
    run_outcome (run_loop lax_float G self fuel [ev] st trace) <> OutOfFuel.
Proof.
  induction fuel as [|fuel IH]; intros ev st trace Hf.
  - pose proof (stage_le ev). lia.
  - destruct (classic_stop ev) as [[result ->]|Hns]; [discriminate|].
    destruct (run_loop_turn lax_float G self fuel ev st trace Hns)
      as [s [Hacc ->]].
    destruct (call_step lax_float G self s ev st) as [[e|out] st'] eqn:E;
      [discriminate|].
    apply IH. apply (call_step_output _ _ _ _ _ _ _ _ Hacc) in E as [E _]. lia.
Qed.

(** C9: the steps of a run are the first steps of the chain load claim,
    generate queries, retrieve policy text, generate recommendation,
    finalize decision, output, each once and in this order; the first
    consumes the start event and every other one the event the step before
    it produced; a run that is done ran all six and its result is the
    decision the last step consumed; a run that failed stopped at the step
    that raised, and no decision was produced; and a run given seven turns
    or more is done or failed. *)
Theorem run_linear (lax_float : json -> option float) (G : Services)
    (self : AutoInsuranceWorkflow) (fuel : nat) (claim_json_path : string) :
  let r := run lax_float G self fuel claim_json_path in
  (exists n, map ran (run_trace r) = firstn n all_steps) /\
  chained (StartEvent claim_json_path) (run_trace r) /\
  match run_outcome r with
  | Done result =>
      map ran (run_trace r) = all_steps /\
      exists decision trace',
        result = [("decision", decision)] /\
        run_trace r
        = trace' ++ [{| ran := Step_output_result;
                        consumed := DecisionEvent decision;
                        produced := inr (StopEvent result) |}]
  | Failed s e =>
      (exists trace' ev,
          run_trace r
          = trace' ++ [{| ran := s; consumed := ev; produced := inl e |}]) /\
      Forall (fun rec => forall d, produced rec <> inr (DecisionEvent d))
             (run_trace r)
  | Stalled => False
  | OutOfFuel => fuel < 7
  end.
Proof.
  set (ev0 := StartEvent claim_json_path).
  set (Inv := fun (ev : Event) (st : RunState) (trace : list step_record) =>
    chained ev0 trace /\ pending_after ev0 trace = Some ev /\
    map ran trace = firstn (stage ev) all_steps /\
    Forall (fun rec => exists out, produced rec = inr out /\ stage out <= stage ev)
           trace /\
    (forall result, ev = StopEvent result ->
       exists decision trace',
         result = [("decision", decision)] /\
         trace = trace' ++ [{| ran := Step_output_result;
                               consumed := DecisionEvent decision;
                               produced := inr (StopEvent result) |}])).
  set (P := fun r : run_result =>
    (exists n, map ran (run_trace r) = firstn n all_steps) /\
    chained ev0 (run_trace r) /\
    match run_outcome r with
    | Done result =>
        map ran (run_trace r) = all_steps /\
        exists decision trace',
          result = [("decision", decision)] /\
          run_trace r
          = trace' ++ [{| ran := Step_output_result;
                          consumed := DecisionEvent decision;
                          produced := inr (StopEvent result) |}]
    | Failed s e =>
        (exists trace' ev,
            run_trace r
            = trace' ++ [{| ran := s; consumed := ev; produced := inl e |}]) /\
        Forall (fun rec => forall d, produced rec <> inr (DecisionEvent d))
               (run_trace r)
    | Stalled => False
    | OutOfFuel => True
    end).
  assert (P (run lax_float G self fuel claim_json_path)) as HP.
  { unfold run. apply (run_loop_inv lax_float G self Inv P).
    - intros ev st trace [Hch [_ [Hr _]]]. unfold P. simpl. eauto.
    - intros result st trace [Hch [_ [Hr [_ Hd]]]]. unfold P. simpl.
      split; [eauto|]. split; [exact Hch|]. split; [exact Hr | by apply Hd].
    - intros s ev st trace [Hch [Hp [Hr [Hf Hd]]]] Hacc.
      destruct (call_step lax_float G self s ev st) as [[e|out] st'] eqn:E.
      + destruct (chained_snoc ev0 ev trace
                    {| ran := s; consumed := ev; produced := inl e |}
                    Hch Hp eq_refl) as [Hch' _].
        unfold P. simpl. split; [|split; [exact Hch'|split; [eauto|]]].
        * exists (S (stage ev)). rewrite map_app, Hr. simpl.
          clear -Hacc. by destruct s, ev.
        * apply Forall_app. split; [|by repeat constructor].
          eapply List.Forall_impl; [|exact Hf].
          intros rec [out [Ho Hs]] d Hd'. rewrite Ho in Hd'.
          injection Hd' as ->. simpl in Hs.
          destruct s, ev; try discriminate; simpl in Hs; try lia.
          simpl in E. by apply output_result_returns in E.
      + destruct (chained_snoc ev0 ev trace
                    {| ran := s; consumed := ev; produced := inr out |}
                    Hch Hp eq_refl) as [Hch' Hp'].
        destruct (call_step_output _ _ _ _ _ _ _ _ Hacc E) as [Hs Ho].
        split; [exact Hch'|]. split; [exact Hp'|]. split; [|split].
        * rewrite map_app, Hr, Hs. simpl. clear -Hacc. by destruct s, ev.
        * apply Forall_app. split.
          -- eapply List.Forall_impl; [|exact Hf].
             intros rec [o [Ho' Hs']]. exists o. split; [exact Ho' | lia].
          -- repeat constructor. exists out. by split.
        * intros result ->. simpl in Hs.
          destruct ev; try discriminate. destruct s; try discriminate.
          specialize (Ho decision eq_refl). injection Ho as ->.
          exists decision, trace. by split.
    - unfold Inv, ev0. simpl. repeat split; try constructor. discriminate. }
  destruct HP as [H1 [H2 H3]]. cbv zeta. split; [exact H1|]. split; [exact H2|].
  destruct (run_outcome (run lax_float G self fuel claim_json_path)) eqn:E;
    try exact H3.
  destruct (Nat.lt_ge_cases fuel 7) as [Hlt|Hge]; [exact Hlt|].
  exfalso. revert E. unfold run. apply run_loop_fuel. simpl. lia.
Qed.

Example run_john :
  run_outcome (run strict_float (sample_services [doc "decl" "DECL"])
                 (sample_workflow ["q1"; "q2"] true) 7 "john.json")
  = Done [("decision",
           ClaimDecision.Build "CLAIM-0001" true (float_of_Z 500)
             (float_of_Z 1000)
             (Some "The collision is covered under the Collision Coverage section with a $500 deductible."))]
  /\ map ran (run_trace (run strict_float (sample_services [doc "decl" "DECL"])
                           (sample_workflow ["q1"; "q2"] true) 7 "john.json"))
     = all_steps.
Proof. split; reflexivity. Qed.

Example run_missing_file :
  run_outcome (run strict_float (sample_services [doc "decl" "DECL"])
                 (sample_workflow ["q1"; "q2"] true) 7 "alice.json")
  = Failed Step_load_claim_info OSError.
Proof. reflexivity. Qed.

(** ** A declaration lookup without result *)

Lemma existsb_false_In {A} (p : A -> bool) (l : list A) :
  existsb p l = false <-> forall x, In x l -> p x = false.
Proof.
  induction l as [|y l IH]; simpl; [by split|].
  rewrite orb_false_iff, IH. split.
  - intros [Hy Hl] x [<-|Hx]; auto.
  - intros H. split; auto.
Qed.

Lemma may_call_empty_lookup (s : step) (c : call) :
  may_call s c = true -> is_empty_lookup c = true ->
  s = Step_retrieve_policy_text.
Proof. destruct s, c; simpl; try discriminate; reflexivity. Qed.

Lemma may_call_recommendation (s : step) (ev : Event) (c : call) :
  accepts s ev = true -> stage ev <= 2 -> may_call s c = true ->
  is_recommendation_call c = false.
Proof.
  destruct s, ev; simpl; try discriminate; try lia; intros _ _;
    destruct c; simpl; try discriminate; reflexivity.
Qed.

(** C2: a run in which the declaration lookup returned no document failed in
    the retrieval step with [IndexError] (DeclarationNotFound); it did not
    ask the LLM for a recommendation, and no step produced a
    recommendation, a decision or a result. *)
Theorem run_declaration_not_found (lax_float : json -> option float)
    (G : Services) (self : AutoInsuranceWorkflow) (fuel : nat)
    (claim_json_path : string) :
  let r := run lax_float G self fuel claim_json_path in
  (exists policy_number top_k,
      In (call_declarations policy_number top_k (inr []))
         (calls (run_state r))) ->
  run_outcome r = Failed Step_retrieve_policy_text DeclarationNotFound /\
  (forall c, In c (calls (run_state r)) -> is_recommendation_call c = false) /\
  (forall rec, In rec (run_trace r) -> produced_judgment rec = false).
Proof.
  set (Inv := fun (ev : Event) (st : RunState) (trace : list step_record) =>
    existsb is_empty_lookup (calls st) = false /\
    (stage ev <= 3 ->
     existsb is_recommendation_call (calls st) = false /\
     existsb produced_judgment trace = false)).
  set (P := fun r : run_result =>
    existsb is_empty_lookup (calls (run_state r)) = true ->
    run_outcome r = Failed Step_retrieve_policy_text DeclarationNotFound /\
    existsb is_recommendation_call (calls (run_state r)) = false /\
    existsb produced_judgment (run_trace r) = false).
  assert (P (run lax_float G self fuel claim_json_path)) as HP.
  { unfold run. apply (run_loop_inv lax_float G self Inv P).
    - intros ev st trace [He _]. unfold P. simpl. congruence.
    - intros result st trace [He _]. unfold P. simpl. congruence.
    - intros s ev st trace [He Hrec] Hacc.
      destruct (call_step lax_float G self s ev st) as [[e|out] st'] eqn:E.
      + destruct (call_step_calls _ _ _ _ _ _ _ _ Hacc E)
          as [extra [Hc [Hmay Hidx]]].
        unfold P. simpl. rewrite Hc, !existsb_app, He. simpl. intros Hextra.
        injection (Hidx Hextra) as ->.
        apply existsb_exists in Hextra as [c [Hin Hemp]].
        rewrite List.Forall_forall in Hmay.
        pose proof (may_call_empty_lookup s c (Hmay c Hin) Hemp) as ->.
        destruct ev; try discriminate.
        destruct Hrec as [Hr Hj]; [simpl; lia|].
        split; [reflexivity|]. rewrite Hr, Hj. simpl. split; [|reflexivity].
        apply existsb_false_In. intros c' Hin'.
        apply (may_call_recommendation Step_retrieve_policy_text
                 (PolicyQueryEvent queries) c'); [reflexivity | simpl; lia|].
        by apply Hmay.
      + destruct (call_step_calls _ _ _ _ _ _ _ _ Hacc E)
          as [extra [Hc [Hmay Hidx]]].
        destruct (call_step_output _ _ _ _ _ _ _ _ Hacc E) as [Hs _].
        split.
        * rewrite Hc, existsb_app, He. simpl.
          destruct (existsb is_empty_lookup extra); [|reflexivity].
          discriminate (Hidx eq_refl).
        * intros Hle. destruct Hrec as [Hr Hj]; [lia|].
          rewrite Hc, !existsb_app, Hr, Hj. simpl. split.
          -- apply existsb_false_In. intros c' Hin'.
             apply (may_call_recommendation s ev c'); [exact Hacc | lia|].
             rewrite List.Forall_forall in Hmay. by apply Hmay.
          -- unfold produced_judgment. simpl.
             destruct out; simpl in Hs, Hle; try reflexivity; lia.
    - unfold Inv. simpl. auto. }
  cbv zeta. intros [pn [k Hin]].
  destruct HP as [H1 [H2 H3]].
  - apply existsb_exists. eexists. split; [exact Hin | reflexivity].
  - split; [exact H1|]. split; by apply existsb_false_In.
Qed.

Lemma run_declaration_not_found_witness :
  run_outcome (run strict_float (sample_services [])
                 (sample_workflow ["q1"; "q2"] true) 7 "john.json")
  = Failed Step_retrieve_policy_text DeclarationNotFound.
Proof.
  apply (run_declaration_not_found strict_float (sample_services [])
           (sample_workflow ["q1"; "q2"] true) 7 "john.json").
  exists "POLICY-ABC123", 1. vm_compute. auto 10.
Defined.

(** * Further properties of the notebook's code *)

(** ** The decision finalizer: payout against coverage, and the keyword *)

(** A decision that pays out a positive amount is a covered one: the payout
    can only be the settlement amount, and a positive settlement amount sets
    [covered]. *)
Theorem finalize_decision_payout_covered (self : AutoInsuranceWorkflow)
    (rec : PolicyRecommendation.t) (st : RunState) (c : ClaimInfo.t) :
  ctx st !! "claim_info" = Some (VClaimInfo c) ->
  exists d st',
    finalize_decision self rec st = (inr (DecisionEvent d), st') /\
    (float_gt (ClaimDecision.recommended_payout d) float_zero = true ->
     ClaimDecision.covered d = true).
Proof.
  intros H.
  destruct (finalize_decision_returns self rec st c H) as [st' [E _]].
  eexists _, st'. split; [exact E|].
  cbn [ClaimDecision.covered ClaimDecision.recommended_payout].
  destruct (PolicyRecommendation.settlement_amount rec) as [a|];
    [|discriminate].
  destruct (float_bool a); [|discriminate].
  intros ->. apply orb_true_r.
Qed.

Lemma finalize_decision_payout_covered_witness :
  exists d st',
    finalize_decision (sample_workflow [] false) john_recommendation
      (loaded_state john) = (inr (DecisionEvent d), st') /\
    (float_gt (ClaimDecision.recommended_payout d) float_zero = true ->
     ClaimDecision.covered d = true).
Proof.
  apply (finalize_decision_payout_covered (sample_workflow [] false)
           john_recommendation (loaded_state john) john).
  reflexivity.
Defined.

(** A settlement amount that is neither zero nor greater than zero (a
    negative amount, a NaN) is not checked: without "covered" in the summary
    the decision is not covered and still carries that amount as payout. *)
Theorem finalize_decision_unchecked_settlement (self : AutoInsuranceWorkflow)
    (rec : PolicyRecommendation.t) (st : RunState) (c : ClaimInfo.t)
    (a : float) :
  ctx st !! "claim_info" = Some (VClaimInfo c) ->
  PolicyRecommendation.settlement_amount rec = Some a ->
  SFeqb a float_zero = false ->
  float_gt a float_zero = false ->
  contains "covered" (lower (PolicyRecommendation.recommendation_summary rec))
  = false ->
  exists d st',
    finalize_decision self rec st = (inr (DecisionEvent d), st') /\
    ClaimDecision.covered d = false /\
    ClaimDecision.recommended_payout d = a.
Proof.
  intros H Ha Hnz Hngt Hno.
  destruct (finalize_decision_returns self rec st c H) as [st' [E _]].
  eexists _, st'. split; [exact E|].
  cbn [ClaimDecision.covered ClaimDecision.recommended_payout].
  rewrite Ha, Hno, Hngt. unfold float_bool. by rewrite Hnz.
Qed.

Lemma finalize_decision_unchecked_settlement_witness :
  exists d st',
    finalize_decision (sample_workflow [] false)
      (PolicyRecommendation.Build "Exclusions" "Delivery use is excluded."
         None (Some (SFopp (float_of_Z 200))))
      (loaded_state john) = (inr (DecisionEvent d), st') /\
    ClaimDecision.covered d = false /\
    ClaimDecision.recommended_payout d = SFopp (float_of_Z 200).
Proof.
  apply (finalize_decision_unchecked_settlement (sample_workflow [] false)
           (PolicyRecommendation.Build "Exclusions" "Delivery use is excluded."
              None (Some (SFopp (float_of_Z 200))))
           (loaded_state john) john (SFopp (float_of_Z 200)));
    reflexivity.
Defined.

Example finalize_decision_nan_settlement :
  fst (finalize_decision (sample_workflow [] false)
         (PolicyRecommendation.Build "Exclusions" "Delivery use is excluded."
            None (Some S754_nan))
         (loaded_state john))
  = inr (DecisionEvent
           (ClaimDecision.Build "CLAIM-0001" false float_zero S754_nan
              (Some "Delivery use is excluded."))).
Proof. reflexivity. Qed.

Lemma lower_app (s1 s2 : string) : lower (s1 +:+ s2) = lower s1 +:+ lower s2.
Proof. induction s1 as [|a s1 IH]; simpl; [reflexivity | by rewrite IH]. Qed.

(** The keyword is matched in any letter case and wherever it stands: a
    summary that holds a word whose lowercase is "covered" gives a covered
    decision, whatever the amounts and whatever surrounds the word ("NOT
    COVERED" included). *)
Theorem finalize_decision_keyword_any_case (self : AutoInsuranceWorkflow)
    (rec : PolicyRecommendation.t) (st : RunState) (c : ClaimInfo.t)
    (pre word post : string) :
  ctx st !! "claim_info" = Some (VClaimInfo c) ->
  PolicyRecommendation.recommendation_summary rec = pre +:+ word +:+ post ->
  lower word = "covered" ->
  exists d st',
    finalize_decision self rec st = (inr (DecisionEvent d), st') /\
    ClaimDecision.covered d = true.
Proof.
  intros H Hs Hw.
  destruct (finalize_decision_returns self rec st c H) as [st' [E _]].
  eexists _, st'. split; [exact E|]. cbn [ClaimDecision.covered].
  apply orb_true_iff. left. apply contains_spec.
  exists (lower pre), (lower post). by rewrite Hs, !lower_app, Hw.
Qed.

Lemma finalize_decision_keyword_any_case_witness :
  exists d st',
    finalize_decision (sample_workflow [] false)
      (PolicyRecommendation.Build "Exclusions"
         "Delivery use is NOT COVERED by this policy." None None)
      (loaded_state john) = (inr (DecisionEvent d), st') /\
    ClaimDecision.covered d = true.
Proof.
  apply (finalize_decision_keyword_any_case (sample_workflow [] false)
           (PolicyRecommendation.Build "Exclusions"
              "Delivery use is NOT COVERED by this policy." None None)
           (loaded_state john) john
           "Delivery use is NOT " "COVERED" " by this policy.");
    reflexivity.
Defined.

(** ** The steps one by one: what they read, store and call *)

Lemma log_same (self : AutoInsuranceWorkflow) (m : message) (st : RunState) :
  exists st',
    log self m st = (inr tt, st') /\ ctx st' = ctx st /\ calls st' = calls st.
Proof.
  unfold log, write_event_to_stream, ret. destruct (_verbose self); eauto.
Qed.

(** [load_claim_info] reads the claim file once.  When the read or the
    validation fails it raises their exception and leaves the context as it
    was; otherwise it stores the validated claim under "claim_info" and
    returns the same claim in its event. *)
Theorem load_claim_info_stores (lax_float : json -> option float)
    (G : Services) (self : AutoInsuranceWorkflow) (claim_json_path : string)
    (st : RunState) :
  exists st',
    calls st'
    = calls st ++ [call_load claim_json_path
                     (load_json G (calls st) claim_json_path)] /\
    match load_json G (calls st) claim_json_path with
    | inl e =>
        load_claim_info lax_float G self claim_json_path st = (inl e, st') /\
        ctx st' = ctx st
    | inr data =>
        match model_validate lax_float data with
        | inl e =>
            load_claim_info lax_float G self claim_json_path st = (inl e, st') /\
            ctx st' = ctx st
        | inr c =>
            load_claim_info lax_float G self claim_json_path st
            = (inr (ClaimInfoEvent c), st') /\
            ctx st' = <["claim_info" := VClaimInfo c]> (ctx st)
        end
    end.
Proof.
  destruct (log_same self (Text ">> Loading Claim Info") st)
    as [st1 [El [Hx Hc]]].
  unfold load_claim_info, parse_claim, bind, external, ctx_set, ret, raise.
  rewrite El. cbv beta iota. rewrite Hc.
  destruct (load_json G (calls st) claim_json_path) as [e|data]; simpl.
  - eexists. split; [|split; [reflexivity|]]; simpl; congruence.
  - destruct (model_validate lax_float data) as [e|c]; simpl;
      eexists; (split; [|split; [reflexivity|]]); simpl; congruence.
Qed.

(** Without a claim in the context the three steps that read it raise
    [ValueError] at once: no service is called (in the retrieval step not
    even for the first query). *)
Theorem steps_need_claim_info (G : Services) (self : AutoInsuranceWorkflow)
    (queries : PolicyQueries.t) (policy_text : string)
    (rec : PolicyRecommendation.t) (st : RunState) :
  ctx st !! "claim_info" = None ->
  (fst (retrieve_policy_text G self queries st) = inl ValueError /\
   calls (snd (retrieve_policy_text G self queries st)) = calls st) /\
  (fst (generate_recommendation self policy_text st) = inl ValueError /\
   calls (snd (generate_recommendation self policy_text st)) = calls st) /\
  (fst (finalize_decision self rec st) = inl ValueError /\
   calls (snd (finalize_decision self rec st)) = calls st).
Proof.
  intros H.
  destruct (log_same self (Text ">> Retrieving policy sections") st)
    as [s1 [E1 [Hx1 Hc1]]].
  destruct (log_same self (Text ">> Generating Policy Recommendation") st)
    as [s2 [E2 [Hx2 Hc2]]].
  destruct (log_same self (Text ">> Finalizing Decision") st)
    as [s3 [E3 [Hx3 Hc3]]].
  unfold retrieve_policy_text, generate_recommendation, finalize_decision,
    bind, ctx_get.
  rewrite E1, E2, E3. cbv beta iota. rewrite Hx1, Hx2, Hx3, H. simpl. auto.
Qed.

Lemma steps_need_claim_info_witness :
  fst (retrieve_policy_text (sample_services [doc "decl" "DECL"])
         (sample_workflow ["q1"] true) (PolicyQueries.Build ["q1"])
         initial_state) = inl ValueError /\
  calls (snd (retrieve_policy_text (sample_services [doc "decl" "DECL"])
                (sample_workflow ["q1"] true) (PolicyQueries.Build ["q1"])
                initial_state)) = [].
Proof.
  apply (steps_need_claim_info (sample_services [doc "decl" "DECL"])
           (sample_workflow ["q1"] true) (PolicyQueries.Build ["q1"])
           "text" john_recommendation initial_state).
  reflexivity.
Defined.

(** With an empty query set the policy retriever is not called and the
    policy text is the text of the declaration document alone. *)
Theorem retrieve_policy_text_no_queries (G : Services)
    (self : AutoInsuranceWorkflow) (st : RunState) (c : ClaimInfo.t)
    (d_doc : NodeWithScore) (rest : list NodeWithScore) :
  ctx st !! "claim_info" = Some (VClaimInfo c) ->
  declarations_retrieve G (calls st) (ClaimInfo.policy_number c) 1
  = inr (d_doc :: rest) ->
  exists st',
    retrieve_policy_text G self (PolicyQueries.Build []) st
    = (inr (PolicyMatchedEvent (get_content d_doc)), st') /\
    calls st'
    = calls st ++ [call_declarations (ClaimInfo.policy_number c) 1
                     (inr (d_doc :: rest))].
Proof.
  intros Hctx Hd. unfold retrieve_policy_text. unfold bind at 1 2.
  destruct (log_same self (Text ">> Retrieving policy sections") st)
    as [st1 [-> [Hx Hc]]].
  unfold ctx_get. rewrite Hx, Hctx.
  unfold bind, as_claim_info, get_declarations_docs, external, subscript0,
    ctx_set, ret. simpl. rewrite Hc, Hd. simpl. eauto.
Qed.

Lemma retrieve_policy_text_no_queries_witness :
  exists st',
    retrieve_policy_text (sample_services [doc "decl" "DECL"])
      (sample_workflow [] true) (PolicyQueries.Build []) (loaded_state john)
    = (inr (PolicyMatchedEvent "DECL"), st') /\
    calls st' = [call_declarations "POLICY-ABC123" 1 (inr [doc "decl" "DECL"])].
Proof.
  apply (retrieve_policy_text_no_queries (sample_services [doc "decl" "DECL"])
           (sample_workflow [] true) (loaded_state john) john
           (doc "decl" "DECL") []); reflexivity.
Defined.

Lemma retrieve_queries_raises (self : AutoInsuranceWorkflow)
    (answered : list string) :
  forall (results : list (list NodeWithScore)) (h' : list call)
         (st : RunState) (combined_docs : dict NodeWithScore)
         (query : string) (later : list string) (e : exn),
    answers self (calls st) answered results h' ->
    policy_retriever self h' query = inl e ->
    exists st',
      retrieve_queries self (answered ++ query :: later) combined_docs st
      = (inl e, st') /\
      calls st' = h' ++ [call_aretrieve query (inl e)] /\ ctx st' = ctx st.
Proof.
  induction answered as [|q answered IH];
    intros [|docs results] h' st combined_docs query later e Ha Hr;
    simpl in Ha; try tauto.
  - subst h'. cbn [app retrieve_queries]. unfold bind at 1 2.
    destruct (log_same self (TextQuery ">> Query: " query) st)
      as [st1 [-> [Hx Hc]]].
    unfold external. rewrite Hc, Hr. eexists. split; [reflexivity|].
    simpl. by split.
  - destruct Ha as [Hq Ha]. cbn [app retrieve_queries]. unfold bind at 1 2.
    destruct (log_same self (TextQuery ">> Query: " q) st)
      as [st1 [-> [Hx Hc]]].
    unfold external at 1. rewrite Hc, Hq.
    set (st2 := {| ctx := ctx st1; stream := stream st1;
                   calls := calls st ++ [call_aretrieve q (inr docs)] |}).
    destruct (IH results h' st2 (merge_docs docs combined_docs) query later e
                Ha Hr) as [st' [E [Hc' Hx']]].
    exists st'. rewrite E. split; [reflexivity|].
    split; [exact Hc' | by rewrite Hx'].
Qed.

(** When the policy retriever raises on a query, the retrieval step raises
    the same exception: the queries after it are not run, the declaration
    lookup is not made and no policy text is stored. *)
Theorem retrieve_policy_text_retriever_raises (G : Services)
    (self : AutoInsuranceWorkflow) (st : RunState) (c : ClaimInfo.t)
    (answered later : list string) (query : string)
    (results : list (list NodeWithScore)) (h' : list call) (e : exn) :
  ctx st !! "claim_info" = Some (VClaimInfo c) ->
  answers self (calls st) answered results h' ->
  policy_retriever self h' query = inl e ->
  exists st',
    retrieve_policy_text G self
      (PolicyQueries.Build (answered ++ query :: later)) st = (inl e, st') /\
    calls st' = h' ++ [call_aretrieve query (inl e)] /\
    ctx st' = ctx st.
Proof.
  intros Hctx Ha Hr. unfold retrieve_policy_text. unfold bind at 1 2.
  destruct (log_same self (Text ">> Retrieving policy sections") st)
    as [st1 [-> [Hx Hc]]].
  unfold ctx_get. rewrite Hx, Hctx. rewrite <- Hc in Ha.
  destruct (retrieve_queries_raises self answered results h' st1 [] query
              later e Ha Hr) as [st' [E [Hc' Hx']]].
  unfold bind at 1. cbn [PolicyQueries.queries]. rewrite E.
  exists st'. split; [reflexivity|]. split; [exact Hc' | by rewrite Hx'].
Qed.

Lemma retrieve_policy_text_retriever_raises_witness :
  exists st',
    retrieve_policy_text (sample_services [doc "decl" "DECL"])
      {| policy_retriever := fun _ q =>
           if String.eqb q "q2" then inl (Raised "TimeoutError")
           else inr [doc q q];
         llm_predict_queries := fun _ _ => inr (PolicyQueries.Build []);
         llm_predict_recommendation := fun _ _ _ => inr john_recommendation;
         _verbose := false |}
      (PolicyQueries.Build (["q1"] ++ "q2" :: ["q3"])) (loaded_state john)
    = (inl (Raised "TimeoutError"), st') /\
    calls st' = [call_aretrieve "q1" (inr [doc "q1" "q1"])]
                ++ [call_aretrieve "q2" (inl (Raised "TimeoutError"))] /\
    ctx st' = ctx (loaded_state john).
Proof.
  apply (retrieve_policy_text_retriever_raises
           (sample_services [doc "decl" "DECL"]) _ (loaded_state john) john
           ["q1"] ["q3"] "q2" [[doc "q1" "q1"]]);
    [reflexivity | simpl; by split | reflexivity].
Defined.

(** [generate_recommendation] asks the LLM once, for the claim stored in the
    context and exactly the policy text of the event it consumes; it returns
    the recommendation of the LLM as it is, or raises what the LLM raised,
    and leaves the context as it was. *)
Theorem generate_recommendation_asks (self : AutoInsuranceWorkflow)
    (policy_text : string) (st : RunState) (c : ClaimInfo.t) :
  ctx st !! "claim_info" = Some (VClaimInfo c) ->
  exists st',
    generate_recommendation self policy_text st
    = (match llm_predict_recommendation self (calls st) c policy_text with
       | inl e => inl e
       | inr recommendation => inr (RecommendationEvent recommendation)
       end, st') /\
    calls st'
    = calls st ++ [call_predict_recommendation c policy_text
                     (llm_predict_recommendation self (calls st) c policy_text)]
    /\ ctx st' = ctx st.
Proof.
  intros Hctx. unfold generate_recommendation. unfold bind at 1 2.
  destruct (log_same self (Text ">> Generating Policy Recommendation") st)
    as [st1 [-> [Hx Hc]]].
  unfold ctx_get. rewrite Hx, Hctx.
  unfold bind at 1 2. unfold as_claim_info, ret at 1. unfold external. rewrite Hc.
  destruct (llm_predict_recommendation self (calls st) c policy_text)
    as [e|r]; simpl.
  - eexists. split; [reflexivity|]. by split.
  - unfold bind.
    destruct (log_same self (TextRecommendation ">> Recommendation: " r)
                {| ctx := ctx st1; stream := stream st1;
                   calls := calls st ++
                     [call_predict_recommendation c policy_text (inr r)] |})
      as [st2 [-> [Hx2 Hc2]]].
    unfold ret. eexists. split; [reflexivity|]. simpl in *.
    split; [exact Hc2 | by rewrite Hx2].
Qed.

Lemma generate_recommendation_asks_witness :
  exists st',
    generate_recommendation (sample_workflow [] true) "DECL" (loaded_state john)
    = (inr (RecommendationEvent john_recommendation), st') /\
    calls st'
    = [call_predict_recommendation john "DECL" (inr john_recommendation)] /\
    ctx st' = ctx (loaded_state john).
Proof.
  apply (generate_recommendation_asks (sample_workflow [] true) "DECL"
           (loaded_state john) john).
  reflexivity.
Defined.

Lemma append_assoc_s (a b c : string) : (a +:+ b) +:+ c = a +:+ b +:+ c.
Proof.
  induction a as [|x a IH]; [reflexivity|].
  change (String x ((a +:+ b) +:+ c) = String x (a +:+ b +:+ c)).
  by rewrite IH.
Qed.

Lemma append_nil_r_s (a : string) : a +:+ EmptyString = a.
Proof.
  induction a as [|x a IH]; [reflexivity|].
  change (String x (a +:+ EmptyString) = String x a). by rewrite IH.
Qed.

Lemma join_In (sep x : string) (l : list string) :
  In x l -> exists pre post, join sep l = pre +:+ x +:+ post.
Proof.
  unfold join. induction l as [|y l IH]; [by intros []|].
  intros [->|Hin].
  - exists EmptyString. destruct l as [|z l]; simpl.
    + exists EmptyString. by rewrite append_nil_r_s.
    + eauto.
  - destruct (IH Hin) as [pre [post E]].
    destruct l as [|z l]; [by destruct Hin|].
    exists (y +:+ sep +:+ pre), post.
    change (String.concat sep (y :: z :: l))
      with (y +:+ sep +:+ String.concat sep (z :: l)).
    by rewrite E, !append_assoc_s.
Qed.

Lemma dict_set_In {V} (k : string) (v : V) (d : dict V) :
  In (k, v) (dict_set k v d).
Proof.
  induction d as [|[k' v'] d IH]; simpl; [auto|].
  destruct (String.eqb k k'); simpl; auto.
Qed.

(** The text of the declaration document is always part of the policy
    text, also when a query returned a node under the same id. *)
Theorem retrieve_policy_text_has_declaration (G : Services)
    (self : AutoInsuranceWorkflow) (queries : PolicyQueries.t) (st : RunState)
    (c : ClaimInfo.t) (results : list (list NodeWithScore)) (h' : list call)
    (d_doc : NodeWithScore) (rest : list NodeWithScore) :
  ctx st !! "claim_info" = Some (VClaimInfo c) ->
  answers self (calls st) (PolicyQueries.queries queries) results h' ->
  declarations_retrieve G h' (ClaimInfo.policy_number c) 1
  = inr (d_doc :: rest) ->
  exists pre post st',
    retrieve_policy_text G self queries st
    = (inr (PolicyMatchedEvent (pre +:+ get_content d_doc +:+ post)), st').
Proof.
  intros Hctx Ha Hd.
  destruct (retrieve_policy_text_returns G self queries st c results h' d_doc
              rest Hctx Ha Hd) as [st' [E _]].
  destruct (join_In blank_line (get_content d_doc)
              (map get_content
                 (dict_values
                    (dict_set (id_ d_doc) d_doc
                       (merge_docs (concat results) [])))))
    as [pre [post Ej]].
  - apply in_map. unfold dict_values.
    apply (in_map snd _ (id_ d_doc, d_doc)). apply dict_set_In.
  - exists pre, post, st'. by rewrite <- Ej.
Qed.

Lemma retrieve_policy_text_has_declaration_witness :
  exists pre post st',
    retrieve_policy_text (sample_services [doc "a" "DECL"])
      (sample_workflow ["q1"] true) (PolicyQueries.Build ["q1"])
      (loaded_state john)
    = (inr (PolicyMatchedEvent (pre +:+ "DECL" +:+ post)), st').
Proof.
  apply (retrieve_policy_text_has_declaration (sample_services [doc "a" "DECL"])
           (sample_workflow ["q1"] true) (PolicyQueries.Build ["q1"])
           (loaded_state john) john [[doc "a" "A"; doc "q1" "q1"]]
           [call_aretrieve "q1" (inr [doc "a" "A"; doc "q1" "q1"])]
           (doc "a" "DECL") []);
    [reflexivity | simpl; by split | reflexivity].
Defined.

(** ** A whole run: when it succeeds, and what a finished run returns *)

Lemma load_claim_info_ok (lax_float : json -> option float) (G : Services)
    (self : AutoInsuranceWorkflow) (claim_json_path : string) (st : RunState)
    (data : json) (c : ClaimInfo.t) :
  load_json G (calls st) claim_json_path = inr data ->
  model_validate lax_float data = inr c ->
  exists st',
    load_claim_info lax_float G self claim_json_path st
    = (inr (ClaimInfoEvent c), st') /\
    calls st' = calls st ++ [call_load claim_json_path (inr data)] /\
    ctx st' = <["claim_info" := VClaimInfo c]> (ctx st).
Proof.
  intros Hl Hv.
  destruct (log_same self (Text ">> Loading Claim Info") st)
    as [st1 [El [Hx Hc]]].
  unfold load_claim_info, parse_claim, bind, external, ctx_set, ret, raise.
  rewrite El. cbv beta iota. rewrite Hc, Hl. cbv beta iota. rewrite Hv.
  eexists. split; [reflexivity|]. simpl. split; congruence.
Qed.

Lemma generate_policy_queries_ok (self : AutoInsuranceWorkflow)
    (claim_info : ClaimInfo.t) (st : RunState) (queries : PolicyQueries.t) :
  llm_predict_queries self (calls st) claim_info = inr queries ->
  exists st',
    generate_policy_queries self claim_info st
    = (inr (PolicyQueryEvent queries), st') /\
    calls st' = calls st ++ [call_predict_queries claim_info (inr queries)] /\
    ctx st' = ctx st.
Proof.
  intros Hq.
  destruct (log_same self (Text ">> Generating Policy Queries") st)
    as [st1 [El [Hx Hc]]].
  unfold generate_policy_queries, bind, external, ret.
  rewrite El. cbv beta iota. rewrite Hc, Hq.
  eexists. split; [reflexivity|]. simpl. split; congruence.
Qed.

Lemma retrieve_policy_text_ok (G : Services) (self : AutoInsuranceWorkflow)
    (queries : PolicyQueries.t) (st : RunState) (c : ClaimInfo.t)
    (results : list (list NodeWithScore)) (h' : list call)
    (d_doc : NodeWithScore) (rest : list NodeWithScore) :
  ctx st !! "claim_info" = Some (VClaimInfo c) ->
  answers self (calls st) (PolicyQueries.queries queries) results h' ->
  declarations_retrieve G h' (ClaimInfo.policy_number c) 1
  = inr (d_doc :: rest) ->
  exists st',
    retrieve_policy_text G self queries st
    = (inr (PolicyMatchedEvent
              (join blank_line
                 (map get_content
                    (dict_values
                       (dict_set (id_ d_doc) d_doc
                          (merge_docs (concat results) [])))))), st') /\
    calls st'
    = h' ++ [call_declarations (ClaimInfo.policy_number c) 1
               (inr (d_doc :: rest))] /\
    ctx st'
    = <["policy_text" :=
          VStr (join blank_line
                  (map get_content
                     (dict_values
                        (dict_set (id_ d_doc) d_doc
                           (merge_docs (concat results) [])))))]> (ctx st).
Proof.
  intros Hctx Ha Hd. unfold retrieve_policy_text. unfold bind at 1 2.
  destruct (log_same self (Text ">> Retrieving policy sections") st)
    as [st1 [-> [Hx1 Hc1]]].
  unfold ctx_get at 1. rewrite Hx1, Hctx.
  rewrite <- Hc1 in Ha.
  destruct (retrieve_queries_answers self _ results h' st1 [] Ha)
    as [st2 [E2 [Hc2 Hx2]]].
  unfold bind at 1. rewrite E2.
  unfold bind, as_claim_info, get_declarations_docs, external, subscript0,
    ctx_set, ret. simpl.
  rewrite Hc2, Hd. simpl. eexists. split; [reflexivity|].
  simpl. split; [reflexivity | by rewrite Hx2, Hx1].
Qed.

Lemma generate_recommendation_ok (self : AutoInsuranceWorkflow)
    (policy_text : string) (st : RunState) (c : ClaimInfo.t)
    (rec : PolicyRecommendation.t) :
  ctx st !! "claim_info" = Some (VClaimInfo c) ->
  llm_predict_recommendation self (calls st) c policy_text = inr rec ->
  exists st',
    generate_recommendation self policy_text st
    = (inr (RecommendationEvent rec), st') /\
    calls st'
    = calls st ++ [call_predict_recommendation c policy_text (inr rec)] /\
    ctx st' = ctx st.
Proof.
  intros Hctx Hr.
  destruct (log_same self (Text ">> Generating Policy Recommendation") st)
    as [st1 [El [Hx Hc]]].
  unfold generate_recommendation, bind, ctx_get, as_claim_info, external, ret.
  rewrite El. cbv beta iota. rewrite Hx, Hctx. cbv beta iota.
  rewrite Hc, Hr. cbv beta iota.
  destruct (log_same self (TextRecommendation ">> Recommendation: " rec)
              {| ctx := ctx st1; stream := stream st1;
                 calls := calls st ++
                   [call_predict_recommendation c policy_text (inr rec)] |})
    as [st2 [El2 [Hx2 Hc2]]].
  rewrite El2. eexists. split; [reflexivity|]. simpl in *.
  split; congruence.
Qed.

Lemma output_result_ok (self : AutoInsuranceWorkflow)
    (decision : ClaimDecision.t) (st : RunState) :
  exists st',
    output_result self decision st
    = (inr (StopEvent [("decision", decision)]), st') /\
    calls st' = calls st /\ ctx st' = ctx st.
Proof.
  destruct (log_same self (TextDecision ">> Decision: " decision) st)
    as [st1 [El [Hx Hc]]].
  unfold output_result, bind, ret. rewrite El. eauto.
Qed.

(** A step that returns hands its event to the next turn of the loop. *)
Lemma run_loop_next (lax_float : json -> option float) (G : Services)
    (self : AutoInsuranceWorkflow) (fuel : nat) (s : step) (ev out : Event)
    (st st' : RunState) (trace : list step_record) :
  accepts s ev = true ->
  call_step lax_float G self s ev st = (inr out, st') ->
  run_loop lax_float G self (S fuel) [ev] st trace
  = run_loop lax_float G self fuel [out] st'
      (trace ++ [{| ran := s; consumed := ev; produced := inr out |}]).
Proof.
  destruct s, ev; try discriminate; intros _ E;
    cbn [run_loop List.filter all_steps accepts deliver]; by rewrite E.
Qed.

(** When the claim file loads and validates, the LLM returns a query set,
    the retriever answers every query, the declaration lookup is not empty
    and the LLM returns a recommendation, a run given seven turns or more
    is done.  Its result is the decision the finalizer makes of that
    recommendation for that claim; it called the services in this order:
    file, LLM for queries, retriever once per query, declaration lookup for
    the claim's policy number with [top_k = 1], LLM for the recommendation
    on the merged text; and its context holds the claim and the policy
    text. *)
Theorem run_succeeds (lax_float : json -> option float) (G : Services)
    (self : AutoInsuranceWorkflow) (k : nat) (claim_json_path : string)
    (data : json) (c : ClaimInfo.t) (queries : PolicyQueries.t)
    (results : list (list NodeWithScore)) (h' : list call)
    (d_doc : NodeWithScore) (rest : list NodeWithScore)
    (rec : PolicyRecommendation.t) :
  load_json G [] claim_json_path = inr data ->
  model_validate lax_float data = inr c ->
  llm_predict_queries self [call_load claim_json_path (inr data)] c
  = inr queries ->
  answers self
    [call_load claim_json_path (inr data);
     call_predict_queries c (inr queries)]
    (PolicyQueries.queries queries) results h' ->
  declarations_retrieve G h' (ClaimInfo.policy_number c) 1
  = inr (d_doc :: rest) ->
  llm_predict_recommendation self
    (h' ++ [call_declarations (ClaimInfo.policy_number c) 1
              (inr (d_doc :: rest))])
    c (join blank_line
         (map get_content
            (dict_values
               (dict_set (id_ d_doc) d_doc (merge_docs (concat results) [])))))
  = inr rec ->
  exists decision,
    fst (finalize_decision self rec (loaded_state c))
    = inr (DecisionEvent decision) /\
    run_outcome (run lax_float G self (7 + k) claim_json_path)
    = Done [("decision", decision)] /\
    calls (run_state (run lax_float G self (7 + k) claim_json_path))
    = h' ++ [call_declarations (ClaimInfo.policy_number c) 1
               (inr (d_doc :: rest));
             call_predict_recommendation c
               (join blank_line
                  (map get_content
                     (dict_values
                        (dict_set (id_ d_doc) d_doc
                           (merge_docs (concat results) [])))))
               (inr rec)] /\
    ctx (run_state (run lax_float G self (7 + k) claim_json_path))
    = <["policy_text" :=
          VStr (join blank_line
                  (map get_content
                     (dict_values
                        (dict_set (id_ d_doc) d_doc
                           (merge_docs (concat results) [])))))]>
        (<["claim_info" := VClaimInfo c]> ∅).
Proof.
  intros Hl Hv Hq Ha Hd Hr.
  set (text := join blank_line
                 (map get_content
                    (dict_values
                       (dict_set (id_ d_doc) d_doc
                          (merge_docs (concat results) []))))) in *.
  unfold run. change (7 + k) with (S (S (S (S (S (S (S k))))))).
  destruct (load_claim_info_ok lax_float G self claim_json_path initial_state
              data c Hl Hv) as [st1 [E1 [Hc1 Hx1]]].
  rewrite (run_loop_next _ _ _ _ Step_load_claim_info (StartEvent claim_json_path) _ _ _ _ eq_refl E1).
  simpl in Hc1, Hx1.
  destruct (generate_policy_queries_ok self c st1 queries) as [st2 [E2 [Hc2 Hx2]]];
    [by rewrite Hc1|].
  rewrite (run_loop_next _ _ _ _ Step_generate_policy_queries
             (ClaimInfoEvent c) _ _ _ _ eq_refl E2).
  rewrite Hc1 in Hc2. simpl in Hc2.
  destruct (retrieve_policy_text_ok G self queries st2 c results h' d_doc rest)
    as [st3 [E3 [Hc3 Hx3]]];
    [by rewrite Hx2, Hx1, lookup_insert_eq | by rewrite Hc2 | exact Hd|].
  fold text in E3, Hx3.
  rewrite (run_loop_next _ _ _ _ Step_retrieve_policy_text
             (PolicyQueryEvent queries) _ _ _ _ eq_refl E3).
  assert (ctx st3 !! "claim_info" = Some (VClaimInfo c)) as Hclaim.
  { rewrite Hx3, lookup_insert_ne by discriminate.
    by rewrite Hx2, Hx1, lookup_insert_eq. }
  destruct (generate_recommendation_ok self text st3 c rec Hclaim)
    as [st4 [E4 [Hc4 Hx4]]]; [by rewrite Hc3|].
  rewrite (run_loop_next _ _ _ _ Step_generate_recommendation
             (PolicyMatchedEvent text) _ _ _ _ eq_refl E4).
  destruct (finalize_decision_returns self rec st4 c) as [st5 [E5 [Hx5 Hc5]]];
    [by rewrite Hx4|].
  rewrite (run_loop_next _ _ _ _ Step_finalize_decision
             (RecommendationEvent rec) _ _ _ _ eq_refl E5).
  match type of E5 with
  | _ = (inr (DecisionEvent ?d), _) => set (decision := d) in *
  end.
  destruct (output_result_ok self decision st5) as [st6 [E6 [Hc6 Hx6]]].
  rewrite (run_loop_next _ _ _ _ Step_output_result
             (DecisionEvent decision) _ _ _ _ eq_refl E6).
  exists decision. cbn [run_loop run_outcome run_state].
  split; [|split; [reflexivity|split]].
  - destruct (finalize_decision_returns self rec (loaded_state c) c)
      as [st' [E' _]]; [apply lookup_insert_eq|].
    by rewrite E'.
  - rewrite Hc6, Hc5, Hc4, Hc3. by rewrite <- app_assoc.
  - by rewrite Hx6, Hx5, Hx4, Hx3, Hx2, Hx1.
Qed.

Lemma run_succeeds_witness :
  run_outcome (run strict_float (sample_services [doc "decl" "DECL"])
                 (sample_workflow ["q1"] true) (7 + 0) "john.json")
  = Done [("decision",
           ClaimDecision.Build "CLAIM-0001" true (float_of_Z 500)
             (float_of_Z 1000)
             (Some "The collision is covered under the Collision Coverage section with a $500 deductible."))].
Proof.
  destruct (run_succeeds strict_float (sample_services [doc "decl" "DECL"])
              (sample_workflow ["q1"] true) 0 "john.json" john_json john
              (PolicyQueries.Build ["q1"]) [[doc "a" "A"; doc "q1" "q1"]]
              [call_load "john.json" (inr john_json);
               call_predict_queries john (inr (PolicyQueries.Build ["q1"]));
               call_aretrieve "q1" (inr [doc "a" "A"; doc "q1" "q1"])]
              (doc "decl" "DECL") [] john_recommendation)
    as [decision [Hd [Hrun _]]].
  - reflexivity.
  - reflexivity.
  - reflexivity.
  - simpl. by split.
  - reflexivity.
  - reflexivity.
  - rewrite Hrun. simpl in Hd. by injection Hd as <-.
Defined.

Lemma log_ctx (self : AutoInsuranceWorkflow) (m : message) (st : RunState)
    (r : exn + unit) (st' : RunState) :
  log self m st = (r, st') -> ctx st' = ctx st.
Proof.
  unfold log, write_event_to_stream, ret.
  destruct (_verbose self); by intros [= <- <-].
Qed.

Lemma ctx_set_ctx (key : string) (v : ctx_value) (st : RunState)
    (r : exn + unit) (st' : RunState) :
  ctx_set key v st = (r, st') -> ctx st' = <[key := v]> (ctx st).
Proof. unfold ctx_set. by intros [= <- <-]. Qed.

Lemma external_ctx {R} (f : list call -> exn + R) (entry : exn + R -> call)
    (st : RunState) (r : exn + R) (st' : RunState) :
  external f entry st = (r, st') -> ctx st' = ctx st.
Proof. unfold external. by intros [= <- <-]. Qed.

Lemma parse_claim_ctx (lax_float : json -> option float) (G : Services)
    (file_path : string) (st : RunState) (r : exn + ClaimInfo.t)
    (st' : RunState) :
  parse_claim lax_float G file_path st = (r, st') -> ctx st' = ctx st.
Proof.
  unfold parse_claim, bind, external, ret, raise.
  destruct (load_json G (calls st) file_path) as [e|data]; simpl.
  - by intros [= <- <-].
  - destruct (model_validate lax_float data); by intros [= <- <-].
Qed.

Lemma retrieve_queries_ctx (self : AutoInsuranceWorkflow)
    (queries : list string) :
  forall (combined_docs : dict NodeWithScore) (st : RunState)
         (r : exn + dict NodeWithScore) (st' : RunState),
    retrieve_queries self queries combined_docs st = (r, st') ->
    ctx st' = ctx st.
Proof.
  induction queries as [|query queries IH]; intros combined_docs st r st'.
  - by intros [= <- <-].
  - cbn [retrieve_queries]. unfold bind.
    destruct (log self (TextQuery ">> Query: " query) st) as [[e|u] s1] eqn:El.
    + intros [= <- <-]. by apply log_ctx in El.
    + apply log_ctx in El.
      destruct (external _ _ s1) as [[e|docs] s2] eqn:Ee;
        apply external_ctx in Ee.
      * intros [= <- <-]. congruence.
      * intros H. apply IH in H. congruence.
Qed.

Ltac ctx_facts :=
  repeat match goal with
         | H : log _ _ _ = _ |- _ => apply log_ctx in H
         | H : ctx_get _ _ = _ |- _ => apply ctx_get_calls in H
         | H : ctx_set _ _ _ = _ |- _ => apply ctx_set_ctx in H
         | H : as_claim_info _ _ = _ |- _ => apply as_claim_info_calls in H
         | H : get_declarations_docs _ _ _ _ = _ |- _ =>
             apply external_ctx in H
         | H : external _ _ _ = _ |- _ => apply external_ctx in H
         | H : parse_claim _ _ _ _ = _ |- _ => apply parse_claim_ctx in H
         | H : retrieve_queries _ _ _ _ = _ |- _ =>
             apply retrieve_queries_ctx in H
         | H : subscript0 _ _ = _ |- _ =>
             apply subscript0_calls in H as [? _]
         end;
  subst.

(** The load step stores the claim of its event; every other step keeps the
    stored claim. *)
Lemma call_step_claim (lax_float : json -> option float) (G : Services)
    (self : AutoInsuranceWorkflow) (s : step) (ev out : Event)
    (st st' : RunState) :
  accepts s ev = true ->
  call_step lax_float G self s ev st = (inr out, st') ->
  match ev with
  | StartEvent _ =>
      exists c, out = ClaimInfoEvent c /\
                ctx st' !! "claim_info" = Some (VClaimInfo c)
  | _ => ctx st' !! "claim_info" = ctx st !! "claim_info"
  end.
Proof.
  destruct s, ev; try discriminate; intros _; cbn [call_step].
  - unfold load_claim_info. bind_cases; unfold ret; intros [= <- <-].
    ctx_facts. eexists. split; [reflexivity|].
    match goal with H : ctx _ = <[_ := _]> _ |- _ => rewrite H end.
    apply lookup_insert_eq.
  - unfold generate_policy_queries. bind_cases; unfold ret; intros [= <- <-].
    ctx_facts. congruence.
  - unfold retrieve_policy_text. bind_cases; unfold ret; intros [= <- <-].
    ctx_facts.
    match goal with H : ctx _ = <[_ := _]> _ |- _ => rewrite H end.
    rewrite lookup_insert_ne by discriminate. congruence.
  - unfold generate_recommendation. bind_cases; unfold ret; intros [= <- <-].
    ctx_facts. congruence.
  - unfold finalize_decision. bind_cases; unfold ret; intros [= <- <-].
    ctx_facts. congruence.
  - unfold output_result. bind_cases; unfold ret; intros [= <- <-].
    ctx_facts. congruence.
Qed.

(** Whenever a run is done, its result is one decision: the decision the
    finalizer makes, for the claim that [load_claim_info] produced from the
    claim file of this run, of the recommendation that
    [generate_recommendation] produced in this run. *)
Theorem run_done_decision (lax_float : json -> option float) (G : Services)
    (self : AutoInsuranceWorkflow) (fuel : nat) (claim_json_path : string)
    (result : dict ClaimDecision.t) :
  run_outcome (run lax_float G self fuel claim_json_path) = Done result ->
  exists c rec policy_text decision,
    result = [("decision", decision)] /\
    In {| ran := Step_load_claim_info;
          consumed := StartEvent claim_json_path;
          produced := inr (ClaimInfoEvent c) |}
       (run_trace (run lax_float G self fuel claim_json_path)) /\
    In {| ran := Step_generate_recommendation;
          consumed := PolicyMatchedEvent policy_text;
          produced := inr (RecommendationEvent rec) |}
       (run_trace (run lax_float G self fuel claim_json_path)) /\
    fst (finalize_decision self rec (loaded_state c))
    = inr (DecisionEvent decision).
Proof.
  set (loaded := fun c (trace : list step_record) =>
    In {| ran := Step_load_claim_info;
          consumed := StartEvent claim_json_path;
          produced := inr (ClaimInfoEvent c) |} trace).
  set (recommended := fun rec (trace : list step_record) =>
    exists policy_text,
      In {| ran := Step_generate_recommendation;
            consumed := PolicyMatchedEvent policy_text;
            produced := inr (RecommendationEvent rec) |} trace).
  set (judged := fun d (trace : list step_record) =>
    exists c rec, loaded c trace /\ recommended rec trace /\
      fst (finalize_decision self rec (loaded_state c))
      = inr (DecisionEvent d)).
  set (Inv := fun (ev : Event) (st : RunState) (trace : list step_record) =>
    match ev with
    | StartEvent p => p = claim_json_path
    | ClaimInfoEvent _ | PolicyQueryEvent _ | PolicyMatchedEvent _ =>
        exists c, ctx st !! "claim_info" = Some (VClaimInfo c) /\ loaded c trace
    | RecommendationEvent rec =>
        exists c, ctx st !! "claim_info" = Some (VClaimInfo c) /\
                  loaded c trace /\ recommended rec trace
    | DecisionEvent d => judged d trace
    | StopEvent res => exists d, res = [("decision", d)] /\ judged d trace
    end).
  set (P := fun r : run_result =>
    forall res, run_outcome r = Done res ->
      exists d, res = [("decision", d)] /\ judged d (run_trace r)).
  assert (P (run lax_float G self fuel claim_json_path)) as HP.
  { unfold run. apply (run_loop_inv lax_float G self Inv P).
    - intros ev st trace _ res. discriminate.
    - intros res st trace HI res' [= <-]. exact HI.
    - intros s ev st trace HI Hacc.
      destruct (call_step lax_float G self s ev st) as [[e|out] st'] eqn:E;
        [intros res; discriminate|].
      pose proof (call_step_claim _ _ _ _ _ _ _ _ Hacc E) as Hclaim.
      destruct (call_step_output _ _ _ _ _ _ _ _ Hacc E) as [Hs Hstop].
      destruct ev; simpl in HI, Hclaim, Hs;
        destruct out; try discriminate Hs; simpl.
      + destruct s; try discriminate Hacc. subst claim_json_path0.
        destruct Hclaim as [c [[= ->] Hc]].
        exists c. split; [exact Hc|]. apply in_or_app. right. by left.
      + destruct HI as [c [Hc Hl]]. exists c.
        split; [congruence | apply in_or_app; by left].
      + destruct HI as [c [Hc Hl]]. exists c.
        split; [congruence | apply in_or_app; by left].
      + destruct HI as [c [Hc Hl]]. exists c.
        split; [congruence|]. split; [apply in_or_app; by left|].
        destruct s; try discriminate Hacc.
        exists policy_text. apply in_or_app. right. by left.
      + destruct HI as [c [Hc [Hl [text Hr]]]].
        destruct s; try discriminate Hacc. simpl in E.
        exists c, recommendation.
        split; [apply in_or_app; by left|].
        split; [exists text; apply in_or_app; by left|].
        destruct (finalize_decision_returns self recommendation st c Hc)
          as [st1 [E1 _]].
        destruct (finalize_decision_returns self recommendation
                    (loaded_state c) c) as [st2 [E2 _]];
          [apply lookup_insert_eq|].
        rewrite E2. rewrite E1 in E. by injection E as <- <-.
      + destruct HI as [c [rec [Hl [[text Hr] Hf]]]].
        specialize (Hstop decision eq_refl). injection Hstop as ->.
        exists decision. split; [reflexivity|].
        exists c, rec. split; [apply in_or_app; by left|].
        split; [exists text; apply in_or_app; by left | exact Hf].
    - reflexivity. }
  intros Hdone. destruct (HP result Hdone) as [d [-> [c [rec [Hl [[text Hr] Hf]]]]]].
  by exists c, rec, text, d.
Qed.

Lemma run_done_decision_witness :
  exists c rec policy_text decision,
    [("decision",
      ClaimDecision.Build "CLAIM-0001" true (float_of_Z 500) (float_of_Z 1000)
        (Some "The collision is covered under the Collision Coverage section with a $500 deductible."))]
    = [("decision", decision)] /\
    In {| ran := Step_load_claim_info;
          consumed := StartEvent "john.json";
          produced := inr (ClaimInfoEvent c) |}
       (run_trace (run strict_float (sample_services [doc "decl" "DECL"])
                     (sample_workflow ["q1"] false) 7 "john.json")) /\
    In {| ran := Step_generate_recommendation;
          consumed := PolicyMatchedEvent policy_text;
          produced := inr (RecommendationEvent rec) |}
       (run_trace (run strict_float (sample_services [doc "decl" "DECL"])
                     (sample_workflow ["q1"] false) 7 "john.json")) /\
    fst (finalize_decision (sample_workflow ["q1"] false) rec (loaded_state c))
    = inr (DecisionEvent decision).
Proof.
  apply (run_done_decision strict_float (sample_services [doc "decl" "DECL"])
           (sample_workflow ["q1"] false) 7 "john.json").
  reflexivity.
Defined.

(** ** The progress stream *)

Lemma same_run_refl (st : RunState) : same_run st st.
Proof. by split. Qed.

Lemma agree_ret {A} (a : A) : agree (ret a) (ret a).
Proof. by intros st st' H. Qed.

Lemma agree_raise {A} (e : exn) : agree (@raise A e) (raise e).
Proof. by intros st st' H. Qed.

Lemma agree_bind {A B} (m m' : M A) (k k' : A -> M B) :
  agree m m' -> (forall a, agree (k a) (k' a)) ->
  agree (bind m k) (bind m' k').
Proof.
  intros Hm Hk st st' Hs. unfold bind.
  destruct (Hm st st' Hs) as [Hf Hr].
  destruct (m st) as [[e|a] s1], (m' st') as [[e'|a'] s1'];
    simpl in Hf, Hr; try discriminate.
  - injection Hf as <-. by split.
  - injection Hf as <-. by apply Hk.
Qed.

Lemma agree_log (self self' : AutoInsuranceWorkflow) (m m' : message) :
  agree (log self m) (log self' m').
Proof.
  intros st st' [Hx Hc]. unfold log, write_event_to_stream, ret.
  by destruct (_verbose self), (_verbose self').
Qed.

Lemma agree_ctx_get (key : string) : agree (ctx_get key) (ctx_get key).
Proof.
  intros st st' [Hx Hc]. unfold ctx_get. rewrite Hx.
  by destruct (ctx st' !! key).
Qed.

Lemma agree_ctx_set (key : string) (v : ctx_value) :
  agree (ctx_set key v) (ctx_set key v).
Proof.
  intros st st' [Hx Hc]. unfold ctx_set. simpl. split; [reflexivity|].
  split; simpl; congruence.
Qed.

Lemma agree_as_claim_info (v : ctx_value) :
  agree (as_claim_info v) (as_claim_info v).
Proof. destruct v; [apply agree_ret | apply agree_raise]. Qed.

Lemma agree_external {R} (f : list call -> exn + R) (entry : exn + R -> call) :
  agree (external f entry) (external f entry).
Proof.
  intros st st' [Hx Hc]. unfold external. simpl. rewrite Hc.
  split; [reflexivity|]. split; simpl; congruence.
Qed.

Lemma agree_subscript0 {A} (l : list A) : agree (subscript0 l) (subscript0 l).
Proof. destruct l; [apply agree_raise | apply agree_ret]. Qed.

Lemma agree_retrieve_queries (self : AutoInsuranceWorkflow) (verbose : bool)
    (queries : list string) :
  forall combined_docs,
    agree (retrieve_queries self queries combined_docs)
          (retrieve_queries (with_verbose verbose self) queries combined_docs).
Proof.
  induction queries as [|query queries IH]; intros combined_docs;
    cbn [retrieve_queries].
  - apply agree_ret.
  - apply agree_bind; [apply agree_log|]. intros _.
    apply agree_bind; [apply agree_external|]. intros docs. apply IH.
Qed.

Ltac agree_steps :=
  repeat first
    [ apply agree_ret | apply agree_raise | apply agree_log
    | apply agree_ctx_get | apply agree_ctx_set | apply agree_as_claim_info
    | apply agree_external | apply agree_subscript0
    | apply agree_retrieve_queries
    | apply agree_bind; [|intros ?] ].

Lemma agree_call_step (lax_float : json -> option float) (G : Services)
    (self : AutoInsuranceWorkflow) (verbose : bool) (s : step) (ev : Event) :
  agree (call_step lax_float G self s ev)
        (call_step lax_float G (with_verbose verbose self) s ev).
Proof.
  destruct s, ev; cbn [call_step]; try apply agree_raise.
  - unfold load_claim_info, parse_claim. agree_steps.
    destruct (model_validate lax_float _); agree_steps.
  - unfold generate_policy_queries. agree_steps.
  - unfold retrieve_policy_text, get_declarations_docs. cbv zeta. agree_steps.
  - unfold generate_recommendation. agree_steps.
  - unfold finalize_decision. cbv zeta. agree_steps.
  - unfold output_result. agree_steps.
Qed.

Lemma agree_deliver (lax_float : json -> option float) (G : Services)
    (self : AutoInsuranceWorkflow) (verbose : bool) (ev : Event)
    (receivers : list step) :
  forall (st st' : RunState) (trace : list step_record),
    same_run st st' ->
    fst (fst (deliver lax_float G self receivers ev st trace))
    = fst (fst (deliver lax_float G (with_verbose verbose self) receivers ev
                  st' trace)) /\
    same_run
      (snd (fst (deliver lax_float G self receivers ev st trace)))
      (snd (fst (deliver lax_float G (with_verbose verbose self) receivers ev
                   st' trace))) /\
    snd (deliver lax_float G self receivers ev st trace)
    = snd (deliver lax_float G (with_verbose verbose self) receivers ev st'
             trace).
Proof.
  induction receivers as [|s receivers IH]; intros st st' trace Hs;
    cbn [deliver].
  - simpl. by split.
  - destruct (agree_call_step lax_float G self verbose s ev st st' Hs)
      as [Hf Hr].
    destruct (call_step lax_float G self s ev st) as [[e|out] s1],
             (call_step lax_float G (with_verbose verbose self) s ev st')
      as [[e'|out'] s1'];
      simpl in Hf, Hr; try discriminate.
    + injection Hf as <-. simpl. by split.
    + injection Hf as <-.
      destruct (IH s1 s1'
                  (trace ++ [{| ran := s; consumed := ev;
                                produced := inr out |}]) Hr)
        as [H1 [H2 H3]].
      destruct (deliver lax_float G self receivers ev s1 _)
        as [[[[s0 e0]|outs] s2] t2],
               (deliver lax_float G (with_verbose verbose self) receivers ev
                  s1' _) as [[[[s0' e0']|outs'] s2'] t2'];
        simpl in H1, H2, H3; try discriminate; simpl.
      * by split.
      * injection H1 as <-. by split.
Qed.

Lemma agree_run_loop (lax_float : json -> option float) (G : Services)
    (self : AutoInsuranceWorkflow) (verbose : bool) (fuel : nat) :
  forall (pending : list Event) (st st' : RunState)
         (trace : list step_record),
    same_run st st' ->
    run_outcome (run_loop lax_float G self fuel pending st trace)
    = run_outcome (run_loop lax_float G (with_verbose verbose self) fuel
                     pending st' trace) /\
    run_trace (run_loop lax_float G self fuel pending st trace)
    = run_trace (run_loop lax_float G (with_verbose verbose self) fuel
                   pending st' trace) /\
    same_run
      (run_state (run_loop lax_float G self fuel pending st trace))
      (run_state (run_loop lax_float G (with_verbose verbose self) fuel
                    pending st' trace)).
Proof.
  induction fuel as [|fuel IH]; intros pending st st' trace Hs;
    cbn [run_loop]; [simpl; by split|].
  destruct pending as [|ev rest]; [simpl; by split|].
  assert (forall (m : list step),
    let r := match deliver lax_float G self m ev st trace with
             | (inl (s, e), st1, t1) =>
                 {| run_outcome := Failed s e; run_state := st1;
                    run_trace := t1 |}
             | (inr outs, st1, t1) =>
                 run_loop lax_float G self fuel (rest ++ outs) st1 t1
             end in
    let r' := match deliver lax_float G (with_verbose verbose self) m ev st'
                      trace with
              | (inl (s, e), st1, t1) =>
                  {| run_outcome := Failed s e; run_state := st1;
                     run_trace := t1 |}
              | (inr outs, st1, t1) =>
                  run_loop lax_float G (with_verbose verbose self) fuel
                    (rest ++ outs) st1 t1
              end in
    run_outcome r = run_outcome r' /\ run_trace r = run_trace r' /\
    same_run (run_state r) (run_state r')) as Hturn.
  { intros m.
    destruct (agree_deliver lax_float G self verbose ev m st st' trace Hs)
      as [H1 [H2 H3]].
    destruct (deliver lax_float G self m ev st trace)
      as [[[[s0 e0]|outs] s2] t2],
             (deliver lax_float G (with_verbose verbose self) m ev st' trace)
      as [[[[s0' e0']|outs'] s2'] t2'];
      simpl in H1, H2, H3; try discriminate; simpl.
    - injection H1 as <- <-. subst t2'. by split.
    - injection H1 as <-. subst t2'. by apply IH. }
  destruct ev; try apply Hturn. simpl. by split.
Qed.

(** The progress stream does not steer the workflow: a run of a verbose and
    a run of a quiet workflow object with the same services end in the same
    outcome, after the same steps on the same events and the same calls,
    with the same context. *)
Theorem run_verbose_independent (lax_float : json -> option float)
    (G : Services) (self : AutoInsuranceWorkflow) (verbose : bool)
    (fuel : nat) (claim_json_path : string) :
  run_outcome (run lax_float G self fuel claim_json_path)
  = run_outcome (run lax_float G (with_verbose verbose self) fuel
                   claim_json_path) /\
  run_trace (run lax_float G self fuel claim_json_path)
  = run_trace (run lax_float G (with_verbose verbose self) fuel
                 claim_json_path) /\
  calls (run_state (run lax_float G self fuel claim_json_path))
  = calls (run_state (run lax_float G (with_verbose verbose self) fuel
                        claim_json_path)) /\
  ctx (run_state (run lax_float G self fuel claim_json_path))
  = ctx (run_state (run lax_float G (with_verbose verbose self) fuel
                      claim_json_path)).
Proof.
  destruct (agree_run_loop lax_float G self verbose fuel
              [StartEvent claim_json_path] initial_state initial_state []
              (same_run_refl _)) as [H1 [H2 H3]].
  unfold run. destruct H3 as [H3 H4]. by repeat split.
Qed.

Lemma logs_only_ret (self : AutoInsuranceWorkflow) {A} (a : A) :
  logs_only self (ret a).
Proof. intros st. exists []. simpl. by rewrite app_nil_r. Qed.

Lemma logs_only_raise (self : AutoInsuranceWorkflow) {A} (e : exn) :
  logs_only self (@raise A e).
Proof. intros st. exists []. simpl. by rewrite app_nil_r. Qed.

Lemma logs_only_bind (self : AutoInsuranceWorkflow) {A B} (m : M A)
    (k : A -> M B) :
  logs_only self m -> (forall a, logs_only self (k a)) ->
  logs_only self (bind m k).
Proof.
  intros Hm Hk st. unfold bind. destruct (Hm st) as [x1 [E1 [F1 V1]]].
  destruct (m st) as [[e|a] s1]; simpl in E1.
  - exists x1. by split.
  - destruct (Hk a s1) as [x2 [E2 [F2 V2]]].
    exists (x1 ++ x2). rewrite E2, E1, <- app_assoc. split; [reflexivity|].
    split; [by apply Forall_app|].
    intros Hv. by rewrite (V1 Hv), (V2 Hv).
Qed.

Lemma logs_only_log (self : AutoInsuranceWorkflow) (m : message) :
  logs_only self (log self m).
Proof.
  intros st. unfold log, write_event_to_stream, ret.
  destruct (_verbose self); simpl.
  - eexists. split; [reflexivity|]. split; [by repeat constructor | discriminate].
  - exists []. by rewrite app_nil_r.
Qed.

Lemma logs_only_ctx_get (self : AutoInsuranceWorkflow) (key : string) :
  logs_only self (ctx_get key).
Proof.
  intros st. unfold ctx_get. exists [].
  destruct (ctx st !! key); simpl; by rewrite app_nil_r.
Qed.

Lemma logs_only_ctx_set (self : AutoInsuranceWorkflow) (key : string)
    (v : ctx_value) :
  logs_only self (ctx_set key v).
Proof. intros st. exists []. simpl. by rewrite app_nil_r. Qed.

Lemma logs_only_as_claim_info (self : AutoInsuranceWorkflow) (v : ctx_value) :
  logs_only self (as_claim_info v).
Proof. destruct v; [apply logs_only_ret | apply logs_only_raise]. Qed.

Lemma logs_only_external (self : AutoInsuranceWorkflow) {R}
    (f : list call -> exn + R) (entry : exn + R -> call) :
  logs_only self (external f entry).
Proof. intros st. exists []. simpl. by rewrite app_nil_r. Qed.

Lemma logs_only_subscript0 (self : AutoInsuranceWorkflow) {A} (l : list A) :
  logs_only self (subscript0 l).
Proof. destruct l; [apply logs_only_raise | apply logs_only_ret]. Qed.

Lemma logs_only_retrieve_queries (self : AutoInsuranceWorkflow)
    (queries : list string) :
  forall combined_docs,
    logs_only self (retrieve_queries self queries combined_docs).
Proof.
  induction queries as [|query queries IH]; intros combined_docs;
    cbn [retrieve_queries].
  - apply logs_only_ret.
  - apply logs_only_bind; [apply logs_only_log|]. intros _.
    apply logs_only_bind; [apply logs_only_external|]. intros docs. apply IH.
Qed.

Ltac logs_only_steps :=
  repeat first
    [ apply logs_only_ret | apply logs_only_raise | apply logs_only_log
    | apply logs_only_ctx_get | apply logs_only_ctx_set
    | apply logs_only_as_claim_info | apply logs_only_external
    | apply logs_only_subscript0 | apply logs_only_retrieve_queries
    | apply logs_only_bind; [|intros ?] ].

Lemma logs_only_call_step (lax_float : json -> option float) (G : Services)
    (self : AutoInsuranceWorkflow) (s : step) (ev : Event) :
  logs_only self (call_step lax_float G self s ev).
Proof.
  destruct s, ev; cbn [call_step]; try apply logs_only_raise.
  - unfold load_claim_info, parse_claim. logs_only_steps.
    destruct (model_validate lax_float _); logs_only_steps.
  - unfold generate_policy_queries. logs_only_steps.
  - unfold retrieve_policy_text, get_declarations_docs. cbv zeta.
    logs_only_steps.
  - unfold generate_recommendation. logs_only_steps.
  - unfold finalize_decision. cbv zeta. logs_only_steps.
  - unfold output_result. logs_only_steps.
Qed.

(** No step writes a delta to the progress stream, so a consumer that prints
    the stream as [stream_workflow] does puts every message on a line of its
    own; and a workflow object that is not verbose writes nothing at all. *)
Theorem run_stream (lax_float : json -> option float) (G : Services)
    (self : AutoInsuranceWorkflow) (fuel : nat) (claim_json_path : string) :
  Forall (fun ev => delta ev = false)
         (stream (run_state (run lax_float G self fuel claim_json_path))) /\
  (_verbose self = false ->
   stream (run_state (run lax_float G self fuel claim_json_path)) = []).
Proof.
  set (Inv := fun (ev : Event) (st : RunState) (trace : list step_record) =>
    Forall (fun ev => delta ev = false) (stream st) /\
    (_verbose self = false -> stream st = [])).
  set (P := fun r : run_result =>
    Forall (fun ev => delta ev = false) (stream (run_state r)) /\
    (_verbose self = false -> stream (run_state r) = [])).
  unfold run. apply (run_loop_inv lax_float G self Inv P).
  - by intros ev st trace HI.
  - by intros res st trace HI.
  - intros s ev st trace [HF HV] _.
    destruct (logs_only_call_step lax_float G self s ev st)
      as [extra [E [F V]]].
    destruct (call_step lax_float G self s ev st) as [[e|out] st'];
      simpl in E; unfold P, Inv; simpl; rewrite E;
      (split; [by apply Forall_app|]);
      intros Hv; by rewrite (HV Hv), (V Hv).
  - split; [constructor | reflexivity].
Qed.

Example run_stream_verbose :
  map msg (stream (run_state
                     (run strict_float (sample_services [doc "decl" "DECL"])
                        (sample_workflow ["q1"] true) 7 "john.json")))
  = [Text ">> Loading Claim Info"; Text ">> Generating Policy Queries";
     Text ">> Retrieving policy sections"; TextQuery ">> Query: " "q1";
     Text ">> Generating Policy Recommendation";
     TextRecommendation ">> Recommendation: " john_recommendation;
     Text ">> Finalizing Decision";
     TextDecision ">> Decision: "
       (ClaimDecision.Build "CLAIM-0001" true (float_of_Z 500)
          (float_of_Z 1000)
          (Some "The collision is covered under the Collision Coverage section with a $500 deductible."))].
Proof. reflexivity. Qed.

Lemma run_stream_witness :
  stream (run_state (run strict_float (sample_services [doc "decl" "DECL"])
                       (sample_workflow ["q1"] false) 7 "john.json")) = [].
Proof.
  apply (proj2 (run_stream strict_float (sample_services [doc "decl" "DECL"])
                  (sample_workflow ["q1"] false) 7 "john.json")).
  reflexivity.
Defined.

(** ** Validation: dump and reload, extra keys *)

(** A claim that is dumped and validated again is the same claim, given that
    the float validator takes a float as it is. *)
Theorem model_validate_model_dump (lax_float : json -> option float)
    (c : ClaimInfo.t) :
  lax_float (JFloat (ClaimInfo.estimated_repair_cost c))
  = Some (ClaimInfo.estimated_repair_cost c) ->
  model_validate lax_float (JDict (model_dump c)) = inr c.
Proof.
  intros H. destruct c as [cn pn nm dt ds co ve].
  unfold model_validate, model_dump, required. simpl in *. rewrite H.
  by destruct ve.
Qed.

Lemma model_validate_model_dump_witness :
  model_validate strict_float (JDict (model_dump john)) = inr john.
Proof. apply (model_validate_model_dump strict_float john). reflexivity. Defined.

(** A key that is no field of [ClaimInfo] is ignored by the validation. *)
Theorem model_validate_extra_key (lax_float : json -> option float)
    (d : dict json) (k : string) (v : json) :
  ~ In k (required_fields ++ ["vehicle_details"]) ->
  model_validate lax_float (JDict (dict_set k v d))
  = model_validate lax_float (JDict d).
Proof.
  intros Hk. unfold model_validate, required. rewrite !dict_get_set.
  assert (forall f, In f (required_fields ++ ["vehicle_details"]) ->
                    String.eqb f k = false) as Hne.
  { intros f Hf. apply String.eqb_neq. intros ->. by apply Hk. }
  rewrite !Hne; [reflexivity|..]; unfold required_fields, str_fields; simpl;
    auto 10.
Qed.

Lemma model_validate_extra_key_witness :
  model_validate strict_float
    (JDict (dict_set "adjuster" (JStr "M. Ross")
              [("claim_number", JStr "CLAIM-0001")]))
  = model_validate strict_float (JDict [("claim_number", JStr "CLAIM-0001")]).
Proof.
  apply (model_validate_extra_key strict_float
           [("claim_number", JStr "CLAIM-0001")] "adjuster" (JStr "M. Ross")).
  unfold required_fields, str_fields. simpl.
  intros [H|[H|[H|[H|[H|[H|[H|[]]]]]]]]; discriminate H.
Defined.

(** ** The metadata cell: policy numbers for the declaration documents *)

(** The map of the metadata cell holds, for each of the two policy holders,
    the policy number of their claim file under the name of their
    declarations file. *)
Theorem build_person_policy_map_ok (lax_float : json -> option float)
    (G : Services) (st : RunState) (alice_data john_data : json)
    (alice_claim john_claim : ClaimInfo.t) :
  load_json G (calls st) (data_dir +:+ "alice" +:+ ".json") = inr alice_data ->
  model_validate lax_float alice_data = inr alice_claim ->
  load_json G
    (calls st ++ [call_load (data_dir +:+ "alice" +:+ ".json") (inr alice_data)])
    (data_dir +:+ "john" +:+ ".json") = inr john_data ->
  model_validate lax_float john_data = inr john_claim ->
  fst (build_person_policy_map lax_float G st)
  = inr [("alice-declarations.md", ClaimInfo.policy_number alice_claim);
         ("john-declarations.md", ClaimInfo.policy_number john_claim)].
Proof.
  intros Ha Hva Hj Hvj.
  unfold build_person_policy_map. cbn [person_policy_map_loop].
  unfold parse_claim, bind, external, ret. simpl. rewrite Ha. simpl.
  rewrite Hva. simpl. rewrite Hj. simpl. by rewrite Hvj.
Qed.

Lemma build_person_policy_map_ok_witness :
  fst (build_person_policy_map strict_float notebook_services initial_state)
  = inr [("alice-declarations.md", "POLICY-XYZ789");
         ("john-declarations.md", "POLICY-ABC123")].
Proof.
  apply (build_person_policy_map_ok strict_float notebook_services
           initial_state alice_json john_json
           (ClaimInfo.Build "CLAIM-0002" "POLICY-XYZ789" "Alice Johnson"
              "2024-04-12" "Rear-ended at a stop light." (float_of_Z 2200) None)
           john);
    reflexivity.
Defined.

(** The loop over the policy holders stops at the first claim file that
    does not load or validate: it raises the exception of that file and
    reads no file after it. *)
Theorem person_policy_map_loop_stops (lax_float : json -> option float)
    (G : Services) (p : string) (later : list string)
    (person_policy_map : dict string) (st : RunState) (e : exn) :
  fst (parse_claim lax_float G (data_dir +:+ p +:+ ".json") st) = inl e ->
  fst (person_policy_map_loop lax_float G (p :: later) person_policy_map st)
  = inl e /\
  calls (snd (person_policy_map_loop lax_float G (p :: later)
                person_policy_map st))
  = calls st ++ [call_load (data_dir +:+ p +:+ ".json")
                   (load_json G (calls st) (data_dir +:+ p +:+ ".json"))].
Proof.
  cbn [person_policy_map_loop]. unfold bind.
  destruct (parse_claim lax_float G (data_dir +:+ p +:+ ".json") st)
    as [[e'|c] st'] eqn:E; simpl; [|discriminate].
  intros [= ->]. split; [reflexivity|].
  revert E. unfold parse_claim, bind, external, ret, raise.
  destruct (load_json G (calls st) (data_dir +:+ p +:+ ".json")) as [e'|data];
    simpl.
  - by intros [= _ <-].
  - destruct (model_validate lax_float data); by intros [= _ <-].
Qed.

Lemma person_policy_map_loop_stops_witness :
  fst (person_policy_map_loop strict_float (sample_services []) ["alice"; "john"]
         [] initial_state) = inl OSError /\
  calls (snd (person_policy_map_loop strict_float (sample_services [])
                ["alice"; "john"] [] initial_state))
  = [call_load (data_dir +:+ "alice" +:+ ".json") (inl OSError)].
Proof.
  apply (person_policy_map_loop_stops strict_float (sample_services [])
           "alice" ["john"] [] initial_state OSError).
  reflexivity.
Defined.

Lemma known_policy_of (person_policy_map : dict string) (doc : CloudDocument) :
  (exists v, known person_policy_map doc v)
  <-> exists key v,
        dict_get "file_name" (metadata doc) = Some key /\
        policy_of person_policy_map key = inr v.
Proof.
  split.
  - intros [v [k [Hf Hk]]]. exists (JStr k), v. split; [exact Hf|].
    simpl. by rewrite Hk.
  - intros [key [v [Hf Hp]]]. exists v. destruct key; simpl in Hp;
      try discriminate. exists s. split; [exact Hf|].
    destruct (dict_get s person_policy_map); [by injection Hp as -> | discriminate].
Qed.

(** Tagging goes through exactly when the map knows every document; then
    every document carries the policy number of its file, with its text and
    its other metadata unchanged. *)
Theorem tag_pipeline_docs_ok (person_policy_map : dict string)
    (pipeline_docs : list CloudDocument) :
  (snd (tag_pipeline_docs person_policy_map pipeline_docs) = None
   <-> Forall (fun doc => exists v, known person_policy_map doc v)
              pipeline_docs) /\
  (snd (tag_pipeline_docs person_policy_map pipeline_docs) = None ->
   Forall2 (fun doc doc' =>
              exists v, known person_policy_map doc v /\ tagged v doc doc')
           pipeline_docs
           (fst (tag_pipeline_docs person_policy_map pipeline_docs))).
Proof.
  induction pipeline_docs as [|doc rest [IH1 IH2]]; cbn [tag_pipeline_docs].
  - simpl. split; [split; auto | constructor].
  - destruct (dict_get "file_name" (metadata doc)) as [key|] eqn:Hf.
    + destruct (policy_of person_policy_map key) as [e|v] eqn:Hp.
      * simpl. split; [|discriminate]. split; [discriminate|].
        intros H. apply List.Forall_inv in H.
        apply known_policy_of in H as [key' [v [Hf' Hp']]]. congruence.
      * destruct (tag_pipeline_docs person_policy_map rest) as [rest' stopped].
        simpl in *.
        assert (known person_policy_map doc v) as Hk.
        { destruct key; simpl in Hp; try discriminate. exists s.
          split; [exact Hf|].
          destruct (dict_get s person_policy_map);
            [by injection Hp as -> | discriminate]. }
        split.
        -- rewrite IH1. split.
           ++ intros H. constructor; eauto.
           ++ intros H. by apply List.Forall_inv_tail in H.
        -- intros Hs. constructor; [|by apply IH2].
           exists v. split; [exact Hk|]. split; [reflexivity|]. simpl.
           split.
           ++ by rewrite dict_get_set, String.eqb_refl.
           ++ intros k Hne. rewrite dict_get_set.
              by apply String.eqb_neq in Hne as ->.
    + simpl. split; [|discriminate]. split; [discriminate|].
      intros H. apply List.Forall_inv in H. destruct H as [v [k [Hf' _]]].
      congruence.
Qed.

Lemma tag_pipeline_docs_ok_witness :
  Forall2 (fun doc doc' =>
             exists v,
               known [("john-declarations.md", "POLICY-ABC123")] doc v /\
               tagged v doc doc')
          [{| doc_text := "DECL";
              metadata := [("file_name", JStr "john-declarations.md")] |}]
          (fst (tag_pipeline_docs [("john-declarations.md", "POLICY-ABC123")]
                  [{| doc_text := "DECL";
                      metadata := [("file_name", JStr "john-declarations.md")]
                    |}])).
Proof.
  apply (proj2 (tag_pipeline_docs_ok [("john-declarations.md", "POLICY-ABC123")]
                  [{| doc_text := "DECL";
                      metadata := [("file_name", JStr "john-declarations.md")]
                    |}])).
  reflexivity.
Defined.

(** Tagging stops at the first document the map does not know, with
    [KeyError] or, for a file name that is a list or a dict, [TypeError]:
    the documents before it are tagged already, it and the documents after
    it are as they were. *)
Theorem tag_pipeline_docs_stops (person_policy_map : dict string)
    (before after : list CloudDocument) (doc : CloudDocument) :
  Forall (fun d => exists v, known person_policy_map d v) before ->
  ~ (exists v, known person_policy_map doc v) ->
  exists e,
    snd (tag_pipeline_docs person_policy_map (before ++ doc :: after)) = Some e /\
    (e = Raised "KeyError" \/ e = Raised "TypeError") /\
    fst (tag_pipeline_docs person_policy_map (before ++ doc :: after))
    = fst (tag_pipeline_docs person_policy_map before) ++ doc :: after.
Proof.
  intros Hb Hd. induction Hb as [|d before Hk Hb IH];
    cbn [app tag_pipeline_docs].
  - destruct (dict_get "file_name" (metadata doc)) as [key|] eqn:Hf.
    + destruct (policy_of person_policy_map key) as [e|v] eqn:Hp.
      * exists e. split; [reflexivity|]. split; [|reflexivity].
        destruct key; simpl in Hp; try (injection Hp as <-; auto).
        destruct (dict_get s person_policy_map); [discriminate|].
        injection Hp as <-. auto.
      * exfalso. apply Hd. apply known_policy_of. eauto.
    + eexists. split; [reflexivity|]. split; [by left | reflexivity].
  - destruct IH as [e [Hs [He Hfst]]].
    apply known_policy_of in Hk as [key [v [Hf Hp]]]. rewrite Hf, Hp.
    destruct (tag_pipeline_docs person_policy_map (before ++ doc :: after))
      as [l stopped].
    destruct (tag_pipeline_docs person_policy_map before) as [l' stopped'].
    simpl in *. exists e. split; [exact Hs|]. split; [exact He|].
    by rewrite Hfst.
Qed.

Lemma tag_pipeline_docs_stops_witness :
  exists e,
    snd (tag_pipeline_docs [("john-declarations.md", "POLICY-ABC123")]
           ([{| doc_text := "J";
                metadata := [("file_name", JStr "john-declarations.md")] |}]
            ++ {| doc_text := "B";
                  metadata := [("file_name", JStr "bob-declarations.md")] |}
            :: [])) = Some e /\
    (e = Raised "KeyError" \/ e = Raised "TypeError") /\
    fst (tag_pipeline_docs [("john-declarations.md", "POLICY-ABC123")]
           ([{| doc_text := "J";
                metadata := [("file_name", JStr "john-declarations.md")] |}]
            ++ {| doc_text := "B";
                  metadata := [("file_name", JStr "bob-declarations.md")] |}
            :: []))
    = fst (tag_pipeline_docs [("john-declarations.md", "POLICY-ABC123")]
             [{| doc_text := "J";
                 metadata := [("file_name", JStr "john-declarations.md")] |}])
      ++ {| doc_text := "B";
            metadata := [("file_name", JStr "bob-declarations.md")] |} :: [].
Proof.
  apply (tag_pipeline_docs_stops [("john-declarations.md", "POLICY-ABC123")]
           [{| doc_text := "J";
               metadata := [("file_name", JStr "john-declarations.md")] |}]
           []
           {| doc_text := "B";
              metadata := [("file_name", JStr "bob-declarations.md")] |}).
  - constructor; [|constructor].
    exists "POLICY-ABC123", "john-declarations.md". by split.
  - intros [v [k [Hf Hk]]]. simpl in Hf. injection Hf as <-. discriminate Hk.
Defined.
